(** * Verification of the exploration dashboard [app.py]

    The development embeds the Python module [app.py] (a Streamlit
    dashboard over a pandas dataframe) and proves properties of its binning
    helper [safe_binning], of the event-rate aggregation performed by
    [plot_event_rate_bar], of the page handlers and of the start-up code in
    [main].

    Modelling conventions.
    - A float is a rational number or one of the three IEEE specials.  The
      cells of a numeric column are taken to be binary64 numbers.  The
      arithmetic of [pd.cut] (edges and labels) is binary64 arithmetic: every
      operation is rounded to the nearest binary64 number ([round64]).  The
      quantiles [pd.qcut] starts from are a parameter of the development
      ([library]); the mean of a group is computed exactly.
    - A pandas [Series] is a list of (index label, value) pairs, so that
      boolean masking and frame construction keep the alignment the library
      maintains through the index.
    - The pandas / numpy routines the module calls ([dropna], [np.unique],
      [pd.cut], [pd.qcut], [astype(str)], [groupby(...).agg]) are written
      out as list programs that follow the library's algorithms (pandas 3).
    - Streamlit and plotly calls are events of a writer monad with
      exceptions; whether an external call raises and what the user picks
      in a widget is read from an environment [env]. *)

From Stdlib Require Import String Bool Arith PeanoNat ZArith QArith Qminmax Qabs Qround Lia Lqa.
From Stdlib Require Import DecimalString List Sorted Permutation.
Import ListNotations.

Local Open Scope string_scope.
Local Open Scope list_scope.
Local Open Scope nat_scope.

(** ** Python values *)

(** A float: a rational number (a binary64 number when it is the cell of a
    column or the result of a rounded operation) or one of the IEEE
    specials. *)
Inductive fval : Type :=
| Fin (q : Q)
| PInf
| NInf
| NaN.

(** The dynamically typed content of a Series cell.  [Interval l r] is the
    pandas interval (l, r] produced by [pd.cut] and [pd.qcut]. *)
Inductive value : Type :=
| Num (x : fval)
| Str (s : string)
| Interval (left right : fval)
| NoneV.

Inductive exn_class : Type :=
| ValueError
| TypeError
| KeyError
| FileNotFoundError
| OtherError.

Record exn : Type := mkExn { exn_cls : exn_class; exn_msg : string }.

(** Outcome of a call that may raise. *)
Inductive result (A : Type) : Type :=
| Ok (a : A)
| Raise (e : exn).
Arguments Ok {A} a.
Arguments Raise {A} e.

(** [try: m  except Exception: h]. *)
Definition try_except {A} (m : result A) (h : exn -> result A) : result A :=
  match m with
  | Ok a => Ok a
  | Raise e => h e
  end.

Definition Qlt_bool (a b : Q) : bool := negb (Qle_bool b a).

Definition fval_eqb (a b : fval) : bool :=
  match a, b with
  | Fin p, Fin q => Qeq_bool p q
  | PInf, PInf => true
  | NInf, NInf => true
  | NaN, NaN => true
  | _, _ => false
  end.

Definition value_eqb (a b : value) : bool :=
  match a, b with
  | Num x, Num y => fval_eqb x y
  | Str s, Str t => String.eqb s t
  | Interval l r, Interval l' r' => fval_eqb l l' && fval_eqb r r'
  | NoneV, NoneV => true
  | _, _ => false
  end.

(** ** Series *)

Definition Series : Type := list (nat * value).

Definition index (s : Series) : list nat := map fst s.
Definition values (s : Series) : list value := map snd s.

(** [pd.isna] on one cell. *)
Definition isna (v : value) : bool :=
  match v with
  | Num NaN => true
  | NoneV => true
  | _ => false
  end.

(** [series.dropna()]: only missing cells go; infinities stay. *)
Definition dropna (s : Series) : Series :=
  filter (fun iv => negb (isna (snd iv))) s.

(** [series.empty]. *)
Definition empty (s : Series) : bool :=
  match s with
  | [] => true
  | _ => false
  end.

(** [series.replace([np.inf, -np.inf], np.nan)]. *)
Definition replace_inf_cell (v : value) : value :=
  match v with
  | Num PInf => Num NaN
  | Num NInf => Num NaN
  | _ => v
  end.

Definition replace_inf (s : Series) : Series :=
  map (fun iv => (fst iv, replace_inf_cell (snd iv))) s.

(** First occurrences of each distinct element, in order of appearance
    ([series.unique()]; [np.unique] returns the same elements sorted, and
    only its length is used).  On cells of mixed types [np.unique] raises
    inside the [try] of [safe_binning]; [pd.qcut] and [pd.cut] raise on such
    cells as well, so the fallback taken is the same. *)
Fixpoint unique (l : list value) : list value :=
  match l with
  | [] => []
  | v :: l' => v :: filter (fun w => negb (value_eqb v w)) (unique l')
  end.

Definition np_unique (s : Series) : list value := unique (values s).

(** ** Binary64 arithmetic *)

(** 2^e as a rational. *)
Definition pow2 (e : Z) : Q :=
  if (0 <=? e)%Z then inject_Z (2 ^ e) else 1 # Z.to_pos (2 ^ (- e)).

(** The exponent of the binade of a positive rational: the largest [e] with
    2^e <= q. *)
Definition ilog2 (q : Q) : Z :=
  let e := (Z.log2 (Qnum q) - Z.log2 (Zpos (Qden q)))%Z in
  if Qle_bool (pow2 e) q then e else (e - 1)%Z.

(** Rounding to the nearest integer, ties to the even one ([np.rint]). *)
Definition rint (x : Q) : Z :=
  let f := Qfloor x in
  let r := (x - inject_Z f)%Q in
  if Qlt_bool r (1 # 2) then f
  else if Qlt_bool (1 # 2) r then (f + 1)%Z
  else if Z.even f then f else (f + 1)%Z.

(** The binary64 number nearest to a rational, ties to even, subnormal
    below 2^-1022; beyond the largest binary64 number the result is an
    infinity. *)
Definition round64 (q : Q) : fval :=
  if Qeq_bool q 0 then Fin 0
  else
    let a := Qabs q in
    let ulp := pow2 (Z.max (ilog2 a) (-1022) - 52) in
    let v := (inject_Z (rint (a / ulp)) * ulp)%Q in
    if Qle_bool (pow2 1024) v then (if Qlt_bool q 0 then NInf else PInf)
    else Fin (Qred (if Qlt_bool q 0 then - v else v)).

(** The float a decimal literal denotes. *)
Definition f64 (q : Q) : fval := round64 q.

(** One correctly rounded operation.  Of a result that is not finite only
    that much is kept: every such result is written NaN. *)
Definition f_op (op : Q -> Q -> Q) (a b : fval) : fval :=
  match a, b with
  | Fin x, Fin y => round64 (op x y)
  | _, _ => NaN
  end.

Definition f_add : fval -> fval -> fval := f_op Qplus.
Definition f_sub : fval -> fval -> fval := f_op Qminus.
Definition f_mul : fval -> fval -> fval := f_op Qmult.
Definition f_div : fval -> fval -> fval := f_op Qdiv.

Definition f_of_nat (n : nat) : fval := Fin (inject_Z (Z.of_nat n)).

Definition f_is_zero (a : fval) : bool :=
  match a with
  | Fin x => Qeq_bool x 0
  | _ => false
  end.

(** The finite numbers of a list of floats, when all of them are. *)
Fixpoint all_finite (l : list fval) : option (list Q) :=
  match l with
  | [] => Some []
  | Fin q :: l' => match all_finite l' with
                   | Some qs => Some (q :: qs)
                   | None => None
                   end
  | _ :: _ => None
  end.

(** ** numpy helpers *)

Fixpoint insert_sorted (x : Q) (l : list Q) : list Q :=
  match l with
  | [] => [x]
  | y :: l' => if Qle_bool x y then x :: l else y :: insert_sorted x l'
  end.

Fixpoint sort (l : list Q) : list Q :=
  match l with
  | [] => []
  | x :: l' => insert_sorted x (sort l')
  end.

(** [np.linspace(start, stop, n + 1)] in binary64: the step is
    [(stop - start) / n], sample [i] is [i * step + start] (or
    [(i / n) * (stop - start) + start] when the step underflows to 0) and
    the last sample is [stop] itself. *)
Definition linspace (start stop : fval) (n : nat) : list fval :=
  match n with
  | O => [start]
  | _ =>
      let div := f_of_nat n in
      let delta := f_sub stop start in
      let step := f_div delta div in
      let y i :=
        f_add (if f_is_zero step
               then f_mul (f_div (f_of_nat i) div) delta
               else f_mul (f_of_nat i) step)
              start in
      map y (seq 0 n) ++ [stop]
  end.

(** Linear interpolation between the order statistics of the sorted sample
    [s] at the virtual position [i * (n - 1) / q], in exact arithmetic.
    This is the quantile of level [i / q] that [Series.quantile] computes
    up to the rounding of its floating-point interpolation. *)
Definition quantile (s : list Q) (q i : nat) : Q :=
  let n := length s in
  let num := i * (n - 1) in
  let lo := num / q in
  let r := num mod q in
  let a := nth lo s 0%Q in
  let b := nth (Nat.min (lo + 1) (n - 1)) s 0%Q in
  Qred (a + (b - a) * (inject_Z (Z.of_nat r) / inject_Z (Z.of_nat q))).

Definition quantiles (s : list Q) (q : nat) : list Q :=
  map (quantile s q) (seq 0 (S q)).

(** [bins.searchsorted(v, side="left")] on an ascending array: the number of
    leading edges strictly below [v]. *)
Fixpoint searchsorted_left (a : list Q) (v : Q) : nat :=
  match a with
  | [] => 0
  | e :: a' => if Qlt_bool e v then S (searchsorted_left a' v) else 0
  end.

(** [algos.unique] on an array of edges. *)
Fixpoint unique_bins (l : list Q) : list Q :=
  match l with
  | [] => []
  | e :: l' => e :: filter (fun w => negb (Qeq_bool e w)) (unique_bins l')
  end.

(** ** pandas binning: [pd.cut] and [pd.qcut] *)

(** The finite numbers among the cells. *)
Fixpoint finite_values (x : list value) : list Q :=
  match x with
  | [] => []
  | Num (Fin q) :: x' => q :: finite_values x'
  | _ :: x' => finite_values x'
  end.

Definition non_numeric (v : value) : bool :=
  match v with
  | Num _ => false
  | NoneV => false
  | _ => true
  end.

Definition is_inf (v : value) : bool :=
  match v with
  | Num PInf => true
  | Num NInf => true
  | _ => false
  end.

Definition list_min (l : list Q) : Q := fold_right Qmin (hd 0%Q l) l.
Definition list_max (l : list Q) : Q := fold_right Qmax (hd 0%Q l) l.

Inductive duplicates : Type :=
| DupRaise
| DupDrop.

(** *** The labels ([_format_labels], precision 3) *)

Definition pow10 (d : nat) : Q := inject_Z (10 ^ Z.of_nat d).

(** [np.around(x, d)] for [d >= 0]: scale by 10^d, round to the nearest
    integer, scale back. *)
Definition np_around (x : Q) (d : nat) : fval :=
  let p := round64 (pow10 d) in
  match f_mul (Fin x) p with
  | Fin y => f_div (Fin (inject_Z (rint y))) p
  | o => o
  end.

(** The zeros between the decimal point and the first digit of [a], for
    0 < a < 1: [- floor(log10(a)) - 1] (the logarithm taken exactly). *)
Fixpoint leading_zeros (fuel : nat) (a : Q) : nat :=
  match fuel with
  | O => 0
  | S fuel' => if Qle_bool 1 (a * 10) then 0 else S (leading_zeros fuel' (a * 10))
  end.

(** [_round_frac(x, precision)]: [precision] decimals, counted from the
    first significant digit when the integer part of [x] is 0. *)
Definition round_frac (precision : nat) (x : Q) : fval :=
  if Qeq_bool x 0 then Fin x
  else
    let digits := if Qlt_bool (Qabs x) 1
                  then leading_zeros 400 (Qabs x) + precision
                  else precision in
    np_around x digits.

Fixpoint unique_floats (l : list fval) : list fval :=
  match l with
  | [] => []
  | e :: l' => e :: filter (fun w => negb (fval_eqb e w)) (unique_floats l')
  end.

(** [_infer_precision(3, bins)]: the first precision from 3 to 19 at which
    the rounded edges are distinct, 3 if there is none. *)
Fixpoint infer_precision_from (fuel precision : nat) (bins : list Q) : nat :=
  match fuel with
  | O => 3
  | S fuel' =>
      if length (unique_floats (map (round_frac precision) bins)) =? length bins
      then precision
      else infer_precision_from fuel' (S precision) bins
  end.

Definition infer_precision (bins : list Q) : nat := infer_precision_from 17 3 bins.

(** The rounded edges; with [include_lowest] the first one is lowered by
    10^-precision. *)
Definition breaks (bins : list Q) (include_lowest : bool) : list fval :=
  let precision := infer_precision bins in
  match map (round_frac precision) bins with
  | [] => []
  | b0 :: bs =>
      (if include_lowest then f_sub b0 (round64 (1 / pow10 precision)) else b0) :: bs
  end.

(** [IntervalIndex.from_breaks(breaks, closed="right")]. *)
Fixpoint from_breaks (b : list fval) : list value :=
  match b with
  | [] => []
  | l :: b' => match b' with
               | [] => []
               | r :: _ => Interval l r :: from_breaks b'
               end
  end.

Definition format_labels (bins : list Q) (include_lowest : bool) : list value :=
  from_breaks (breaks bins include_lowest).

(** *** The cut ([_bins_to_cuts]) *)

(** The position of the bucket of one number for the ascending edges
    [bins]: its insertion point [id] on the left, so that the number lies in
    (bins[id-1], bins[id]]; with [include_lowest] a number equal to the
    first edge is given [id = 1]. *)
Definition bucket_id (bins : list Q) (include_lowest : bool) (x : Q) : nat :=
  if include_lowest && Qeq_bool x (hd 0%Q bins) then 1 else searchsorted_left bins x.

(** The label of one cell: the label of position [id - 1], or NaN for a
    cell outside every interval ([id] is 0 or the number of edges) and for a
    missing cell.  The buckets are delimited by the edges themselves, the
    labels carry the rounded edges. *)
Definition cut_label (bins : list Q) (include_lowest : bool) (v : value) : value :=
  match v with
  | Num (Fin x) =>
      let id := bucket_id bins include_lowest x in
      if (id =? 0) || (id =? length bins) then Num NaN
      else nth (id - 1) (format_labels bins include_lowest) (Num NaN)
  | _ => Num NaN
  end.

Definition cuts (series : Series) (bins : list Q) (include_lowest : bool)
  : Series * list value :=
  (map (fun iv => (fst iv, cut_label bins include_lowest (snd iv))) series,
   map (fun e => Num (Fin e)) bins).

(** [_bins_to_cuts]: repeated edges are an error or are dropped, except
    when there are exactly two edges.  A single edge delimits no interval
    and the call fails. *)
Definition bins_to_cuts (series : Series) (bins : list Q) (include_lowest : bool)
    (dup : duplicates) : result (Series * list value) :=
  let u := unique_bins bins in
  if length bins <? 2 then
    Raise (mkExn ValueError "no interval between the bin edges")
  else if (length u <? length bins) && negb (length bins =? 2) then
    match dup with
    | DupRaise => Raise (mkExn ValueError "Bin edges must be unique")
    | DupDrop => Ok (cuts series u include_lowest)
    end
  else Ok (cuts series bins include_lowest).

(** The float 0.001. *)
Definition thousandth : fval := f64 (1 # 1000).

(** [_nbins_to_bins] in binary64: the [bins + 1] equal-width edges over the
    observed range; for a constant sample the range is first widened by 0.1
    percent of the value on both sides, otherwise 0.1 percent of the range
    is taken off the first edge afterwards. *)
Definition nbins_to_bins (mn mx : Q) (bins : nat) : list fval :=
  if Qeq_bool mn mx then
    let lo := f_sub (Fin mn)
                    (if Qeq_bool mn 0 then thousandth
                     else f_mul thousandth (Fin (Qabs mn))) in
    let hi := f_add (Fin mx)
                    (if Qeq_bool mx 0 then thousandth
                     else f_mul thousandth (Fin (Qabs mx))) in
    linspace lo hi bins
  else
    match linspace (Fin mn) (Fin mx) bins with
    | [] => []
    | e0 :: es => f_sub e0 (f_mul (f_sub (Fin mx) (Fin mn)) thousandth) :: es
    end.

(** [pd.cut(series, bins=bins, retbins=True)] for an integer [bins].  When
    the range of the sample overflows, the edges are not finite and the call
    fails. *)
Definition pd_cut (series : Series) (bins : nat) : result (Series * list value) :=
  let x := values series in
  if bins <? 1 then
    Raise (mkExn ValueError "`bins` should be a positive integer.")
  else if empty series then
    Raise (mkExn ValueError "Cannot cut empty array")
  else if existsb non_numeric x then
    Raise (mkExn TypeError "unsupported operand type(s)")
  else if existsb is_inf x then
    Raise (mkExn ValueError
             "cannot specify integer `bins` when input data contains infinity")
  else
    match finite_values x with
    | [] => Raise (mkExn ValueError "Cannot cut empty array")
    | qs =>
        match all_finite (nbins_to_bins (list_min qs) (list_max qs) bins) with
        | None => Raise (mkExn ValueError "missing values must be missing in the same location both left and right sides")
        | Some edges => bins_to_cuts series edges false DupRaise
        end
    end.

(** What the installed numpy and pandas compute where the module only
    relies on it: the quantiles of a sample, a floating-point interpolation
    that is not reproduced here, and [pd.qcut] on a sample that contains an
    infinity or whose quantiles are not finite: the call fails, or it gives
    every cell a label that depends on the cell alone, and the edges. *)
Record library : Type := mkLibrary {
  series_quantile : list Q -> nat -> list fval;
  qcut_nonfinite : list value -> nat -> result ((value -> value) * list value)
}.

(** The labels of a series: the cells are labelled in place, under their
    index labels. *)
Definition label_with (f : value -> value) (series : Series) : Series :=
  map (fun iv => (fst iv, f (snd iv))) series.

Section Binning.

Variable lib : library.

Definition qcut_open (series : Series) (q : nat) : result (Series * list value) :=
  match qcut_nonfinite lib (values series) q with
  | Ok (f, edges) => Ok (label_with f series, edges)
  | Raise e => Raise e
  end.

(** [pd.qcut(series, q=q, duplicates='drop', retbins=True)]: the edges are
    the quantiles of levels 0, 1/q, ..., 1 of the sample. *)
Definition pd_qcut (series : Series) (q : nat) : result (Series * list value) :=
  let x := values series in
  if existsb non_numeric x then
    Raise (mkExn TypeError "unsupported operand type(s)")
  else if existsb is_inf x then qcut_open series q
  else
    match finite_values x with
    | [] => Raise (mkExn ValueError "cannot compute quantiles of an empty sample")
    | qs =>
        match all_finite (series_quantile lib qs q) with
        | None => qcut_open series q
        | Some edges => bins_to_cuts series edges true DupDrop
        end
    end.

(** ** [safe_binning] (app.py, lines 13-33) *)

(** The bin count is a natural number (the application passes 2 to 10 from
    a slider, the default is 10). *)
Definition safe_binning (series : Series) (bins : nat)
  : result (Series * list value) :=
  let series := dropna series in
  if empty series then Ok ([], [])
  else
    try_except
      (if bins <? length (np_unique series)
       then pd_qcut series bins
       else pd_cut series bins)
      (fun _ =>
         try_except (pd_cut series bins)
                    (fun _ => Ok (series, unique (values series)))).

End Binning.

(** ** Printing *)

Definition digits_of (n : Z) : string :=
  NilZero.string_of_uint (N.to_uint (Z.to_N n)).

Fixpoint zeros (n : nat) : string :=
  match n with
  | O => ""
  | S n' => ("0" ++ zeros n')%string
  end.

(** A positive integer without its trailing zeros. *)
Fixpoint strip_zeros (fuel : nat) (m : Z) : Z :=
  match fuel with
  | O => m
  | S fuel' =>
      if (0 <? m)%Z && (m mod 10 =? 0)%Z then strip_zeros fuel' (m / 10) else m
  end.

(** The decimal exponent of a positive rational: floor(log10(a)). *)
Definition ilog10 (a : Q) : Z :=
  if Qlt_bool a 1 then (- Z.of_nat (leading_zeros 400 a) - 1)%Z
  else (Z.of_nat (String.length (digits_of (Qfloor a))) - 1)%Z.

Definition qpow10 (e : Z) : Q :=
  if (0 <=? e)%Z then inject_Z (10 ^ e) else 1 # Z.to_pos (10 ^ (- e)).

(** The shortest decimal that reads back as the float [a] > 0, tried with
    1, 2, ... up to 17 digits: its digits (without trailing zeros) and the
    exponent of the first one. *)
Fixpoint shortest_from (fuel k : nat) (a : Q) (e : Z) : Z * Z :=
  let scale := qpow10 (Z.of_nat k - 1 - e) in
  let m := rint (a * scale) in
  match fuel with
  | O => (m, e)
  | S fuel' =>
      if fval_eqb (round64 (inject_Z m / scale)) (Fin (Qred a))
      then (if (m =? 10 ^ Z.of_nat k)%Z then (1%Z, (e + 1)%Z)
            else (strip_zeros 20 m, e))
      else shortest_from fuel' (S k) a e
  end.

(** Fixed notation for decimal exponents from -4 to 15, scientific notation
    otherwise. *)
Definition repr_pos (a : Q) : string :=
  let (m, e) := shortest_from 16 1 a (ilog10 a) in
  let d := digits_of m in
  let n := String.length d in
  if ((-4 <=? e) && (e <? 16))%Z then
    if (0 <=? e)%Z then
      let i := S (Z.to_nat e) in
      if (n <=? i)%nat then (d ++ zeros (i - n) ++ ".0")%string
      else (substring 0 i d ++ "." ++ substring i (n - i) d)%string
    else ("0." ++ zeros (Z.to_nat (- e - 1)) ++ d)%string
  else
    let mant := if (n =? 1)%nat then d
                else (substring 0 1 d ++ "." ++ substring 1 (n - 1) d)%string in
    let ex := digits_of (Z.abs e) in
    (mant ++ "e" ++ (if (e <? 0)%Z then "-" else "+")
          ++ (if (String.length ex <? 2)%nat then "0" ++ ex else ex))%string.

(** [repr] of a float. *)
Definition float_repr (x : fval) : string :=
  match x with
  | Fin q => if Qeq_bool q 0 then "0.0"
             else if Qlt_bool q 0 then ("-" ++ repr_pos (Qabs q))%string
             else repr_pos q
  | PInf => "inf"
  | NInf => "-inf"
  | NaN => "nan"
  end.

(** [str] of a cell. *)
Definition py_str_value (v : value) : string :=
  match v with
  | Num x => float_repr x
  | Str s => s
  | Interval l r => ("(" ++ float_repr l ++ ", " ++ float_repr r ++ "]")%string
  | NoneV => "None"
  end.

(** ** Frames and [groupby(...).agg(['mean', 'count'])] *)

(** [series.astype(str)]: a cell becomes the string it prints as; a missing
    cell stays missing. *)
Definition astype_str_cell (v : value) : value :=
  if isna v then v else Str (py_str_value v).

Definition astype_str (s : Series) : Series :=
  map (fun iv => (fst iv, astype_str_cell (snd iv))) s.

(** A Python dict literal with string keys: a later binding of a key
    replaces the earlier one in place. *)
Fixpoint dict_set {A} (k : string) (v : A) (d : list (string * A)) : list (string * A) :=
  match d with
  | [] => [(k, v)]
  | (k', v') :: d' =>
      if String.eqb k k' then (k', v) :: d' else (k', v') :: dict_set k v d'
  end.

Fixpoint dict_get {A} (k : string) (d : list (string * A)) : option A :=
  match d with
  | [] => None
  | (k', v) :: d' => if String.eqb k k' then Some v else dict_get k d'
  end.

Fixpoint loc (i : nat) (s : Series) : option value :=
  match s with
  | [] => None
  | (j, v) :: s' => if i =? j then Some v else loc i s'
  end.

(** [series.reindex(idx)]: a label the series lacks gets NaN. *)
Definition reindex (idx : list nat) (s : Series) : Series :=
  map (fun i => (i, match loc i s with Some v => v | None => Num NaN end)) idx.

(** The labels of [b] that [a] lacks, appended to [a]. *)
Definition union_index (a b : list nat) : list nat :=
  a ++ filter (fun i => negb (existsb (Nat.eqb i) a)) b.

(** [pd.DataFrame(dict_of_series)]: every column is aligned to the union of
    the indexes. *)
Definition Frame : Type := list (string * Series).

Definition frame_of_dict (d : list (string * Series)) : Frame :=
  let idx := fold_left (fun acc ks => union_index acc (index (snd ks))) d [] in
  map (fun ks => (fst ks, reindex idx (snd ks))) d.

Definition fadd (a b : fval) : fval :=
  match a, b with
  | NaN, _ => NaN
  | _, NaN => NaN
  | PInf, NInf => NaN
  | NInf, PInf => NaN
  | PInf, _ => PInf
  | _, PInf => PInf
  | NInf, _ => NInf
  | _, NInf => NInf
  | Fin p, Fin q => Fin (Qred (p + q))
  end.

Definition fdiv_nat (a : fval) (n : nat) : fval :=
  match a with
  | Fin p => if n =? 0 then NaN else Fin (Qred (p / inject_Z (Z.of_nat n)))
  | _ => if n =? 0 then NaN else a
  end.

(** A group under construction: its key and the cells of the aggregated
    column, in row order. *)
Definition group : Type := (value * list value)%type.

Fixpoint add_row (k v : value) (gs : list group) : list group :=
  match gs with
  | [] => [(k, [v])]
  | (k', vs) :: gs' =>
      if value_eqb k k' then (k', vs ++ [v]) :: gs' else (k', vs) :: add_row k v gs'
  end.

(** The groups in order of first appearance; rows with a missing key are
    left out ([dropna=True]). *)
Definition collect_groups (rows : list (value * value)) : list group :=
  fold_left (fun gs kv => if isna (fst kv) then gs else add_row (fst kv) (snd kv) gs)
            rows [].

Definition fval_leb (a b : fval) : bool :=
  match a, b with
  | Fin p, Fin q => Qle_bool p q
  | NInf, _ => true
  | _, PInf => true
  | _, _ => false
  end.

(** The order of the keys of one column: strings by code points, numbers by
    value. *)
Definition key_leb (a b : value) : bool :=
  match a, b with
  | Str s, Str t => String.leb s t
  | Num x, Num y => fval_leb x y
  | _, _ => true
  end.

Fixpoint insert_group (g : group) (gs : list group) : list group :=
  match gs with
  | [] => [g]
  | h :: gs' => if key_leb (fst g) (fst h) then g :: gs else h :: insert_group g gs'
  end.

(** [sort=True]: the groups come in the order of their keys. *)
Definition sort_groups (gs : list group) : list group :=
  fold_right insert_group [] gs.

Definition groups_of (rows : list (value * value)) : list group :=
  sort_groups (collect_groups rows).

(** One row of the event-rate table, after the columns were renamed to
    "Bin", "Event rate", "Count". *)
Record er_row : Type := mkRow { Bin : value; Event_rate : fval; Count : nat }.

Definition numeric_cells (vs : list value) : option (list fval) :=
  fold_right (fun v acc =>
                match v, acc with
                | Num x, Some l => Some (x :: l)
                | _, _ => None
                end) (Some []) vs.

(** ['mean'] and ['count'] of one group: both skip missing cells; the mean
    of cells that are not numbers is an error. *)
Definition agg_mean_count (g : group) : result er_row :=
  let present := filter (fun v => negb (isna v)) (snd g) in
  match numeric_cells present with
  | None => Raise (mkExn TypeError "agg function failed [how->mean,dtype->object]")
  | Some xs =>
      Ok (mkRow (fst g)
                (fdiv_nat (fold_left fadd xs (Fin 0)) (length xs))
                (length xs))
  end.

Fixpoint result_map {A B} (f : A -> result B) (l : list A) : result (list B) :=
  match l with
  | [] => Ok []
  | a :: l' =>
      match f a with
      | Raise e => Raise e
      | Ok b => match result_map f l' with
                | Raise e => Raise e
                | Ok bs => Ok (b :: bs)
                end
      end
  end.

(** [frame.groupby(by)[col].agg(['mean', 'count']).reset_index()]. *)
Definition groupby_agg (f : Frame) (by_ col : string) : result (list er_row) :=
  match dict_get by_ f with
  | None => Raise (mkExn KeyError by_)
  | Some keys =>
      match dict_get col f with
      | None => Raise (mkExn KeyError ("Column not found: " ++ col)%string)
      | Some cells =>
          result_map agg_mean_count
                     (groups_of (combine (values keys) (values cells)))
      end
  end.

(** ** The event-rate computation (app.py, lines 61-76) *)

(** A boolean Series. *)
Definition Mask : Type := list (nat * bool).

Definition isna_series (s : Series) : Mask :=
  map (fun iv => (fst iv, isna (snd iv))) s.

(** [~m]. *)
Definition mask_not (m : Mask) : Mask :=
  map (fun ib => (fst ib, negb (snd ib))) m.

Fixpoint mask_at (i : nat) (m : Mask) : option bool :=
  match m with
  | [] => None
  | (j, b) :: m' => if i =? j then Some b else mask_at i m'
  end.

(** [a & b], aligned on the labels of [a]. *)
Definition mask_and (a b : Mask) : Mask :=
  map (fun ib => (fst ib, snd ib && match mask_at (fst ib) b with
                                    | Some c => c
                                    | None => false
                                    end)) a.

(** [s[mask]]: the cells whose label the mask marks true. *)
Definition getmask (s : Series) (m : Mask) : Series :=
  filter (fun iv => match mask_at (fst iv) m with
                    | Some b => b
                    | None => false
                    end) s.

(** Lines 61-66: both columns restricted to the rows where the feature is
    finite and present and the target is present. *)
Definition paired_exclusion (x0 y0 : Series) : Series * Series :=
  let x := replace_inf x0 in
  let y := y0 in
  let mask := mask_and (mask_not (isna_series x)) (mask_not (isna_series y)) in
  (getmask x mask, getmask y mask).

Section EventRate.

Variable lib : library.

(** Lines 72-76 for the retained columns [x] and [y]. *)
Definition event_rate_df (x y : Series) (y_feature : string) (n_bins_x : nat)
  : result (list er_row) :=
  match safe_binning lib x n_bins_x with
  | Raise e => Raise e
  | Ok (x_binned, _) =>
      let binned_df :=
        frame_of_dict (dict_set y_feature y [("x_bin", astype_str x_binned)]) in
      groupby_agg binned_df "x_bin" y_feature
  end.

End EventRate.

(** ** The dataset *)

Inductive dtype : Type :=
| Number
| Boolean
| Object.

Record column : Type := mkCol { col_dtype : dtype; col_cells : list value }.

(** The dataframe read from the CSV file: named, typed columns. *)
Definition DataFrame : Type := list (string * column).

(** [df.columns.tolist()]. *)
Definition columns (df : DataFrame) : list string := map fst df.

(** A column as a Series over the default index 0, 1, 2, ... *)
Definition range_series (cells : list value) : Series :=
  combine (seq 0 (length cells)) cells.

Definition key_error (name : string) : exn :=
  mkExn KeyError ("'" ++ name ++ "'")%string.

Definition getcol (df : DataFrame) (name : string) : result column :=
  match dict_get name df with
  | Some c => Ok c
  | None => Raise (key_error name)
  end.

(** [df[name]]. *)
Definition getitem (df : DataFrame) (name : string) : result Series :=
  match getcol df name with
  | Ok c => Ok (range_series (col_cells c))
  | Raise e => Raise e
  end.

(** [pd.api.types.is_numeric_dtype]: booleans count as numeric. *)
Definition is_numeric_dtype (c : column) : bool :=
  match col_dtype c with
  | Number => true
  | Boolean => true
  | Object => false
  end.

Definition is_number (c : column) : bool :=
  match col_dtype c with
  | Number => true
  | _ => false
  end.

(** [df.select_dtypes(include=np.number)] and
    [df.select_dtypes(exclude=np.number)]: booleans are not [np.number]. *)
Definition select_dtypes_include_number (df : DataFrame) : DataFrame :=
  filter (fun nc => is_number (snd nc)) df.

Definition select_dtypes_exclude_number (df : DataFrame) : DataFrame :=
  filter (fun nc => negb (is_number (snd nc))) df.

(** [series.nunique()]: distinct cells, the missing ones left out. *)
Definition nunique (c : column) : nat :=
  length (unique (filter (fun v => negb (isna v)) (col_cells c))).

(** [df.empty]: no column or no row. *)
Definition df_empty (df : DataFrame) : bool :=
  match df with
  | [] => true
  | (_, c) :: _ => match col_cells c with [] => true | _ => false end
  end.

(** ** The user interface: events, environment, monad *)

Inductive table : Type :=
| RateTable (rows : list er_row)
| SummaryStats (by_ col : string)
| Describe (col : string)
| ValueCounts (col : string)
| CorrMatrix (cols : list string)
| Averages (by_ col : string).

Inductive figure : Type :=
| BoxFig (x y color title : string)
| RateBarFig (data : list er_row) (x y text title : string)
| BarFig (data : table) (x y title : string)
| HistogramFig (x title : string)
| HeatmapFig (data : table) (title : string).

(** What a run puts on the page, in order. *)
Inductive event : Type :=
| SetPageConfig (layout page_title : string)
| Title (s : string)
| Header (s : string)
| Subheader (s : string)
| Markdown (s : string)
| Write (s : string)
| Info (s : string)
| Warning (s : string)
| Error (s : string)
| Image (url : string)
| Iframe (url : string)
| PlotlyChart (fig : figure)
| ShowDataframe (t : table)
| SidebarHeader (s : string)
| SidebarSubheader (s : string)
| SidebarMarkdown (s : string)
| Selectbox (label : string) (options : list string)
| SidebarSelectbox (label : string) (options : list string)
| Radio (label : string) (options : list string)
| SidebarRadio (label : string) (options : list string)
| Slider (label : string) (lo hi default : nat).

(** The library calls that build or draw a chart or a table; each may
    raise. *)
Inductive extcall : Type :=
| px_box
| px_bar
| px_histogram
| px_imshow
| st_plotly_chart
| st_dataframe
| st_image
| st_iframe
| groupby_agg_stats
| style_format
| series_describe
| series_value_counts
| df_corr
| groupby_mean.

(** Everything a run reads from outside the module: which external calls
    raise, what the user has picked in each widget (a position among the
    options offered), the content of the data file, and the installed
    numerical library. *)
Record env : Type := mkEnv {
  raises : extcall -> option exn;
  selectbox_choice : string -> nat;
  radio_choice : string -> nat;
  slider_choice : string -> nat;
  read_csv : string -> result DataFrame;
  pandas : library
}.

(** How a piece of the script ends: normally, by an exception, or by
    [st.stop()], which no [except Exception] clause intercepts. *)
Inductive outcome (A : Type) : Type :=
| Ret (a : A)
| Exc (e : exn)
| Stopped.
Arguments Ret {A} a.
Arguments Exc {A} e.
Arguments Stopped {A}.

Definition UI (A : Type) : Type := (outcome A * list event)%type.

Definition ret {A} (a : A) : UI A := (Ret a, []).

Definition bind {A B} (m : UI A) (f : A -> UI B) : UI B :=
  match m with
  | (Ret a, l) => let (o, l') := f a in (o, l ++ l')
  | (Exc e, l) => (Exc e, l)
  | (Stopped, l) => (Stopped, l)
  end.

Notation "x <- m ;; k" := (bind m (fun x => k))
  (at level 61, m at next level, right associativity).
Notation "m ;; k" := (bind m (fun _ => k))
  (at level 61, right associativity).

Definition emit (ev : event) : UI unit := (Ret tt, [ev]).
Definition raise {A} (e : exn) : UI A := (Exc e, []).
Definition st_stop {A} : UI A := (Stopped, []).

Definition lift {A} (r : result A) : UI A :=
  match r with
  | Ok a => ret a
  | Raise e => raise e
  end.

(** [try: m  except Exception as e: h e]. *)
Definition try_ui {A} (m : UI A) (h : exn -> UI A) : UI A :=
  match m with
  | (Exc e, l) => let (o, l') := h e in (o, l ++ l')
  | _ => m
  end.

(** An external call that yields [a] unless the environment makes it
    raise. *)
Definition call {A} (E : env) (c : extcall) (a : A) : UI A :=
  match raises E c with
  | Some e => raise e
  | None => ret a
  end.

(** An external call that draws [ev]. *)
Definition draw (E : env) (c : extcall) (ev : event) : UI unit :=
  match raises E c with
  | Some e => raise e
  | None => emit ev
  end.

(** The option at the position the user picked. *)
Definition pick (options : list string) (choice : nat) : option string :=
  nth_error options (choice mod length options).

(** [str(x)] of a selection that may be [None]. *)
Definition py_str (o : option string) : string :=
  match o with
  | Some s => s
  | None => "None"
  end.

Definition st_selectbox (E : env) (label : string) (options : list string)
  : UI (option string) :=
  emit (Selectbox label options) ;; ret (pick options (selectbox_choice E label)).

Definition st_sidebar_selectbox (E : env) (label : string) (options : list string)
  : UI (option string) :=
  emit (SidebarSelectbox label options) ;; ret (pick options (selectbox_choice E label)).

Definition st_radio (E : env) (label : string) (options : list string) : UI string :=
  emit (Radio label options) ;; ret (py_str (pick options (radio_choice E label))).

Definition st_sidebar_radio (E : env) (label : string) (options : list string)
  : UI string :=
  emit (SidebarRadio label options) ;; ret (py_str (pick options (radio_choice E label))).

Definition st_slider (E : env) (label : string) (lo hi default : nat) : UI nat :=
  emit (Slider label lo hi default) ;;
  ret (lo + slider_choice E label mod (hi - lo + 1)).

(** ** The application (app.py) *)

Definition TARGET_FEATURE : string := "default_ind".

Definition POWER_BI_EMBED_URL : string :=
  "https://app.powerbi.com/view?r=eyJrIjoiZTNkMjZjMzgtNTQ2My00OWRkLWE2ZDMtYjc3NmNhMDk1NDY2IiwidCI6IjI4ZjMyNTNmLTYxNjQtNDFlYi1hMDU2LTIwYjY4MTM5MzA0YiJ9".

Definition mem (s : string) (l : list string) : bool := existsb (String.eqb s) l.

(** The [try] block of [plot_boxplot] (lines 39-53). *)
Definition plot_boxplot_body (E : env) (df : DataFrame) (x_feature y_feature : string)
  : UI unit :=
  fig <- call E px_box
           (BoxFig y_feature x_feature y_feature
                   ("Distribution of " ++ x_feature ++ " by " ++ y_feature)%string) ;;
  draw E st_plotly_chart (PlotlyChart fig) ;;
  stats_df <- call E groupby_agg_stats (SummaryStats y_feature x_feature) ;;
  emit (Write "📊 Summary Stats by Target") ;;
  styled <- call E style_format stats_df ;;
  draw E st_dataframe (ShowDataframe styled).

(** [plot_boxplot] (lines 36-55). *)
Definition plot_boxplot (E : env) (df : DataFrame) (x_feature y_feature : string)
  : UI unit :=
  try_ui (plot_boxplot_body E df x_feature y_feature)
         (fun e => emit (Error ("❌ Could not plot boxplot: " ++ exn_msg e)%string)).

(** The [try] block of [plot_event_rate_bar] (lines 61-88). *)
Definition plot_event_rate_bar_body (E : env) (df : DataFrame)
    (x_feature y_feature : string) (n_bins_x : nat) : UI unit :=
  x0 <- lift (getitem df x_feature) ;;
  y0 <- lift (getitem df y_feature) ;;
  let (x, y) := paired_exclusion x0 y0 in
  if empty x then
    emit (Warning ("No valid data to plot for " ++ x_feature ++ ".")%string)
  else
    event_rate <- lift (event_rate_df (pandas E) x y y_feature n_bins_x) ;;
    emit (Write "📋 Binned Event Rate Table") ;;
    draw E st_dataframe (ShowDataframe (RateTable event_rate)) ;;
    fig <- call E px_bar
             (RateBarFig event_rate "Bin" "Event rate" "Count"
                         ("📊 Event Rate by Bins for " ++ x_feature)%string) ;;
    draw E st_plotly_chart (PlotlyChart fig).

(** [plot_event_rate_bar] (lines 58-91). *)
Definition plot_event_rate_bar (E : env) (df : DataFrame)
    (x_feature y_feature : string) (n_bins_x : nat) : UI unit :=
  try_ui (plot_event_rate_bar_body E df x_feature y_feature n_bins_x)
         (fun e => emit (Error ("❌ Could not generate binning chart for "
                                  ++ x_feature ++ ": " ++ exn_msg e)%string)).

(** [data_overview_page] (lines 93-100). *)
Definition data_overview_page (E : env) (powerbi_embed_url : string) : UI unit :=
  emit (Header "Power BI Dashboard") ;;
  emit (Markdown "Displaying the Power BI dashboard for data overview.") ;;
  if String.eqb powerbi_embed_url "" then
    emit (Info "Please provide the Power BI embed URL in the sidebar settings.")
  else
    draw E st_iframe (Iframe powerbi_embed_url).

(** [univariate_analysis_page] (lines 102-125). *)
Definition univariate_analysis_page (E : env) (df : DataFrame) : UI unit :=
  emit (Header "Univariate Analysis") ;;
  emit (Markdown "Explore the distribution of individual features in your dataset.") ;;
  let all_features := columns df in
  selected_feature <- st_selectbox E "Select a feature to analyze" all_features ;;
  let selected := py_str selected_feature in
  emit (Subheader ("Distribution of " ++ selected)%string) ;;
  col <- lift (getcol df selected) ;;
  if is_numeric_dtype col then
    fig_hist <- call E px_histogram
                  (HistogramFig selected ("Distribution of " ++ selected)%string) ;;
    draw E st_plotly_chart (PlotlyChart fig_hist) ;;
    emit (Write "📈 **Summary Statistics**") ;;
    described <- call E series_describe (Describe selected) ;;
    draw E st_dataframe (ShowDataframe described)
  else
    counts <- call E series_value_counts (ValueCounts selected) ;;
    fig_bar <- call E px_bar
                 (BarFig counts selected "Count"
                         ("Value Counts of " ++ selected)%string) ;;
    draw E st_plotly_chart (PlotlyChart fig_bar).

(** [correlation_page] (lines 127-148). *)
Definition correlation_page (E : env) (df : DataFrame) : UI unit :=
  emit (Header "Correlation Matrix") ;;
  emit (Markdown "Visualize the pairwise correlations between numerical features.") ;;
  let numeric_df := select_dtypes_include_number df in
  if df_empty numeric_df then
    emit (Warning "No numerical features available to generate a correlation matrix.")
  else
    corr_matrix <- call E df_corr (CorrMatrix (columns numeric_df)) ;;
    fig_corr <- call E px_imshow (HeatmapFig corr_matrix "Correlation Heatmap") ;;
    draw E st_plotly_chart (PlotlyChart fig_corr).

Definition BOXPLOT : string := "📦 Boxplot".
Definition NOT_SUITABLE : string :=
  "The selected target feature is not suitable for these types of bivariate plots. Please select a binary or low-cardinality target feature.".
Definition SELECT_NUMERIC : string :=
  "Please select a numeric feature to analyze with these plot types.".

(** Lines 154-158 and 160-163 of [bivariates_page]. *)
Definition numerical_features (df : DataFrame) : list string :=
  columns (select_dtypes_include_number df).

Definition categorical_features (df : DataFrame) : list string :=
  columns (select_dtypes_exclude_number df).

Definition non_target_features (df : DataFrame) (target_feature : string) : list string :=
  let all_features := numerical_features df ++ categorical_features df in
  filter (fun col => negb (String.eqb col target_feature)) all_features.

Definition is_target_binary_like (target : column) : bool :=
  is_numeric_dtype target && (nunique target <=? 10).

(** [selected in features] for a selection that may be [None]. *)
Definition opt_mem (o : option string) (l : list string) : bool :=
  match o with
  | Some s => mem s l
  | None => false
  end.
Definition EVENT_RATE : string := "📊 Event Rate".

(** [bivariates_page] (lines 150-181). *)
Definition bivariates_page (E : env) (df : DataFrame) (target_feature : string)
  : UI unit :=
  emit (Header "Bivariate Analysis") ;;
  emit (Markdown "Explore the relationship between individual features and your chosen target variable.") ;;
  let numerical_features := numerical_features df in
  let non_target_features := non_target_features df target_feature in
  target <- lift (getcol df target_feature) ;;
  if is_target_binary_like target then
    emit (SidebarMarkdown "---") ;;
    emit (SidebarSubheader "Plot-Specific Settings") ;;
    selected_feature <-
      st_sidebar_selectbox E "Select Feature to Analyze" non_target_features ;;
    if opt_mem selected_feature numerical_features then
      let selected := py_str selected_feature in
      plot_mode <- st_radio E "Choose Plot Type" [BOXPLOT; EVENT_RATE] ;;
      if String.eqb plot_mode BOXPLOT then
        plot_boxplot E df selected target_feature
      else if String.eqb plot_mode EVENT_RATE then
        n_bins_other <-
          st_slider E ("Number of Bins for '" ++ selected ++ "'")%string 2 10 5 ;;
        plot_event_rate_bar E df selected target_feature n_bins_other
      else ret tt
    else
      emit (Warning SELECT_NUMERIC)
  else
    emit (Warning NOT_SUITABLE).

(** [defaulter_profiling_page] (lines 183-211). *)
Definition defaulter_profiling_page (E : env) (df : DataFrame) (target_feature : string)
  : UI unit :=
  emit (Header "Defaulter Profiling") ;;
  emit (Markdown "Analyze the average feature values for defaulters and non-defaulters.") ;;
  let numerical_features := numerical_features df in
  let features_to_profile :=
    filter (fun f => negb (String.eqb f target_feature)) numerical_features in
  match features_to_profile with
  | [] =>
      emit (Warning "No numerical features available for profiling after excluding the target column.")
  | _ =>
      emit (SidebarMarkdown "---") ;;
      emit (SidebarSubheader "Profiling Settings") ;;
      selected_feature <-
        st_sidebar_selectbox E "Select Feature to Profile" features_to_profile ;;
      let selected := py_str selected_feature in
      emit (Subheader ("Average " ++ selected
                         ++ " for Defaulters vs. Non-Defaulters")%string) ;;
      _ <- lift (getcol df target_feature) ;;
      avg_df <- call E groupby_mean (Averages target_feature selected) ;;
      fig <- call E px_bar
               (BarFig avg_df target_feature "Average Value"
                       ("Average " ++ selected ++ " Value by " ++ target_feature)%string) ;;
      draw E st_plotly_chart (PlotlyChart fig)
  end.

(** [home_page] (lines 213-218). *)
Definition home_page (E : env) : UI unit :=
  emit (Header "Welcome to the American Express Dashboard") ;;
  emit (Markdown "Use the navigation menu on the left sidebar to explore the data and model results.") ;;
  draw E st_image
       (Image "https://upload.wikimedia.org/wikipedia/commons/thumb/3/30/American_Express_logo.svg/1200px-American_Express_logo.svg.png").

Definition HOME : string := "🏠 Home".
Definition DATA_OVERVIEW : string := "📝 Data Overview".
Definition UNIVARIATE : string := "📊 Univariate Analysis".
Definition BIVARIATES : string := "📉 Bivariates".
Definition CORRELATION : string := "📈 Correlation Matrix".
Definition PROFILING : string := "👤 Defaulter Profiling".

Definition PAGES : list string :=
  [HOME; DATA_OVERVIEW; UNIVARIATE; BIVARIATES; CORRELATION; PROFILING].

Definition intro_text : string :=
  "
        This app will automatically read a file from the same directory to explore
        bivariate relationships, model results, and model profiling.
    ".

(** Lines 221-227: what [main] shows before it reads the file. *)
Definition preamble : UI unit :=
  emit (SetPageConfig "wide" "Bivariate Analysis Dashboard") ;;
  emit (Title "Bivariate Analysis Dashboard") ;;
  emit (Markdown intro_text).

(** Lines 254-270: the navigation radio and the page it selects. *)
Definition dispatch (E : env) (df : DataFrame) : UI unit :=
  page_selection <- st_sidebar_radio E "Go to" PAGES ;;
  if String.eqb page_selection HOME then home_page E
  else if String.eqb page_selection DATA_OVERVIEW then
    data_overview_page E POWER_BI_EMBED_URL
  else if String.eqb page_selection UNIVARIATE then univariate_analysis_page E df
  else if String.eqb page_selection BIVARIATES then bivariates_page E df TARGET_FEATURE
  else if String.eqb page_selection CORRELATION then correlation_page E df
  else if String.eqb page_selection PROFILING then
    defaulter_profiling_page E df TARGET_FEATURE
  else ret tt.

(** [main] (lines 220-270). *)
Definition main (E : env) : UI unit :=
  preamble ;;
  let excel_filename := "data.csv" in
  match read_csv E excel_filename with
  | Raise e =>
      match exn_cls e with
      | FileNotFoundError =>
          emit (Error ("Error: The file '" ++ excel_filename ++ "' was not found.")%string) ;;
          emit (Info "Please make sure your data file is in the same folder as this script and that the filename above matches.")
      | _ =>
          emit (Error ("An error occurred while reading the file: " ++ exn_msg e)%string) ;;
          emit (Info "If it's an Excel file, ensure 'openpyxl' is installed: `pip install openpyxl`.")
      end
  | Ok df =>
      let all_features := columns df in
      match all_features with
      | [] => emit (Warning "The uploaded file does not contain any columns to analyze.")
      | _ =>
          emit (SidebarHeader "Navigation") ;;
          (if mem TARGET_FEATURE all_features then ret tt
           else
             emit (Error ("The fixed target feature '" ++ TARGET_FEATURE
                            ++ "' was not found in the data.")%string) ;;
             st_stop) ;;
          dispatch E df
      end
  end.

(** * Vocabulary of the statements *)

(** Sample data for the closed statements below. *)
Definition fins (l : list Z) : list fval := map (fun z => Fin (inject_Z z)) l.
Definition floats (l : list Z) : list value := map Num (fins l).

(** [pd.qcut] refusing a sample with an infinity, as pandas 3 does. *)
Definition qcut_rejects : list value -> nat -> result ((value -> value) * list value) :=
  fun _ _ => Raise (mkExn ValueError "missing values must be missing in the same location both left and right sides").

(** The library of the closed statements below: the quantiles are the
    exact interpolations (on the samples of those statements the
    floating-point interpolation is exact as well). *)
Definition exact_quantiles (qs : list Q) (q : nat) : list fval :=
  map Fin (quantiles (sort qs) q).

Definition reference_library : library := mkLibrary exact_quantiles qcut_rejects.

(** The identity binning: every cell is its own label, the distinct cells
    are the edges. *)
Definition identity_binning (series : Series) : Series * list value :=
  (series, unique (values series)).

(** The result of the first attempt that did not raise, [last] if all
    did. *)
Fixpoint first_success {A} (attempts : list (result A)) (last : A) : A :=
  match attempts with
  | [] => last
  | Ok a :: _ => a
  | Raise _ :: rest => first_success rest last
  end.

(** The chain as the specification words it: quantile, then equal-width,
    then identity, whatever the number of distinct values. *)
Definition spec_safe_binning (lib : library)
    (series : Series) (bins : nat) : result (Series * list value) :=
  let s := dropna series in
  Ok (if empty s then ([], [])
      else first_success [pd_qcut lib s bins; pd_cut s bins] (identity_binning s)).

(** The drop as the specification words it: missing and infinite cells. *)
Definition spec_drop_nonfinite (s : Series) : Series :=
  filter (fun iv => negb (isna (snd iv) || is_inf (snd iv))) s.

(** A script fragment that cannot end by [st.stop()]. *)
Definition never_stops {A} (m : UI A) : Prop := fst m <> Stopped.

(** An environment in which nothing raises and every widget is left at its
    first option; the data file holds [df]. *)
Definition quiet_env (df : DataFrame) : env :=
  mkEnv (fun _ => None) (fun _ => 0) (fun _ => 0) (fun _ => 0)
        (fun _ => Ok df) reference_library.

Definition figure_error : exn := mkExn ValueError "could not build the figure".

(** The same, except that every plotly constructor raises [figure_error]. *)
Definition charts_fail (df : DataFrame) : env :=
  mkEnv (fun c => match c with
                  | px_box => Some figure_error
                  | px_bar => Some figure_error
                  | px_histogram => Some figure_error
                  | px_imshow => Some figure_error
                  | _ => None
                  end)
        (fun _ => 0) (fun _ => 0) (fun _ => 0) (fun _ => Ok df) reference_library.

(** Small frames for the closed statements: one with a numeric target, one
    whose feature column is all missing, one whose target column is spelled
    differently, one with a target of strings. *)
Definition sample_df : DataFrame :=
  [("age", mkCol Number (floats [30; 40; 50]%Z));
   ("default_ind", mkCol Number (floats [0; 1; 0]%Z))].

Definition nan_df : DataFrame :=
  [("feature", mkCol Number [Num NaN; Num NaN; Num NaN]);
   ("default_ind", mkCol Number (floats [0; 1; 0]%Z))].

Definition TARGET_NOT_FOUND : string :=
  "The fixed target feature 'default_ind' was not found in the data.".

Definition no_target_df : DataFrame :=
  [("age", mkCol Number (floats [30; 40; 50]%Z));
   ("Default_Ind", mkCol Number (floats [0; 1; 0]%Z))].

(** The feature picked in the sidebar of the bivariate page. *)
Definition bivariate_selection (E : env) (df : DataFrame) (target_feature : string)
  : option string :=
  pick (non_target_features df target_feature)
       (selectbox_choice E "Select Feature to Analyze").

(** What the bivariate page draws before it branches. *)
Definition bivariate_heading : list event :=
  [Header "Bivariate Analysis";
   Markdown "Explore the relationship between individual features and your chosen target variable."].

Definition bivariate_sidebar (df : DataFrame) (target_feature : string) : list event :=
  [SidebarMarkdown "---";
   SidebarSubheader "Plot-Specific Settings";
   SidebarSelectbox "Select Feature to Analyze" (non_target_features df target_feature)].

Definition labels_df : DataFrame :=
  [("age", mkCol Number (floats [30; 40; 50]%Z));
   ("default_ind", mkCol Object [Str "yes"; Str "no"; Str "yes"])].

(** Whether row [i] survives the paired exclusion of [x0] and [y0]: the
    feature cell is present and finite, the target cell is present. *)
Definition retained (x0 y0 : Series) (i : nat) : bool :=
  match loc i x0, loc i y0 with
  | Some a, Some t => negb (isna (replace_inf_cell a)) && negb (isna t)
  | _, _ => false
  end.

(** The number of rows in a group, and in all groups. *)
Definition group_size (g : group) : nat := length (snd g).

Definition total_size (gs : list group) : nat := list_sum (map group_size gs).

(** A cell that holds a number and is not missing. *)
Definition present_number (v : value) : Prop :=
  exists x, v = Num x /\ x <> NaN.

(** The exclusion as the specification words it: a row goes when either
    cell is missing or not finite. *)
Definition spec_paired_exclusion (x0 y0 : Series) : Series * Series :=
  let finite v := negb (isna v || is_inf v) in
  let keep i := match loc i x0, loc i y0 with
                | Some a, Some t => finite a && finite t
                | _, _ => false
                end in
  (filter (fun iv => keep (fst iv)) x0, filter (fun iv => keep (fst iv)) y0).

(** The worked scenario of the specification. *)
Definition scenario_feature : list fval := fins [1; 2; 3; 4; 5; 6; 7; 8; 9; 10]%Z.
Definition scenario_target : list fval := fins [0; 0; 0; 0; 0; 1; 1; 1; 1; 1]%Z.

Definition scenario_df : DataFrame :=
  [("feature", mkCol Number (map Num scenario_feature));
   ("default_ind", mkCol Number (map Num scenario_target))].

Definition scenario_table : list er_row :=
  [mkRow (Str "(0.999, 5.5]") (Fin 0) 5;
   mkRow (Str "(5.5, 10.0]") (Fin 1) 5].

(** A target cell that is 0 or 1. *)
Definition is_binary (t : fval) : Prop :=
  exists q, t = Fin q /\ (q == 0 \/ q == 1)%Q.

(** The interpolation at the virtual position [num / q] of a sorted
    sample. *)
Definition interpolate (s : list Q) (q num : nat) : Q :=
  (nth (num / q) s 0
   + (nth (Nat.min (num / q + 1) (length s - 1)) s 0 - nth (num / q) s 0)
     * (inject_Z (Z.of_nat (num mod q)) / inject_Z (Z.of_nat q)))%Q.

(** What [Series.quantile] is relied on for, on one sample and one number
    of quantiles: its answer is [q + 1] finite numbers [Qs] in ascending
    order, from the minimum of the sample to its maximum. *)
Definition regular_quantiles (lib : library) (qs : list Q) (q : nat) (Qs : list Q)
  : Prop :=
  series_quantile lib qs q = map Fin Qs
  /\ length Qs = q + 1
  /\ StronglySorted Qle Qs
  /\ (nth 0 Qs 0 == list_min qs)%Q
  /\ (nth q Qs 0 == list_max qs)%Q.




(** The header each page opens with, in the order of [PAGES]. *)
Definition PAGE_HEADERS : list string :=
  ["Welcome to the American Express Dashboard";
   "Power BI Dashboard";
   "Univariate Analysis";
   "Bivariate Analysis";
   "Correlation Matrix";
   "Defaulter Profiling"].

(** An environment in which the user is on the univariate page and the
    histogram constructor raises; and one whose data file cannot be read:
    [read_csv] raises [e]. *)
Definition histogram_fails (df : DataFrame) : env :=
  mkEnv (fun c => match c with
                  | px_histogram => Some figure_error
                  | _ => None
                  end)
        (fun _ => 0) (fun _ => 2) (fun _ => 0) (fun _ => Ok df) reference_library.

Definition unreadable_env (e : exn) : env :=
  mkEnv (fun _ => None) (fun _ => 0) (fun _ => 0) (fun _ => 0)
        (fun _ => Raise e) reference_library.

(** A script fragment whose only way to end by an exception is that an
    external call raised it. *)
Definition only_external {A} (E : env) (m : UI A) : Prop :=
  forall e evs, m = (Exc e, evs) -> exists c, raises E c = Some e.

(** The options of the profiling page (line 188). *)
Definition features_to_profile (df : DataFrame) (target_feature : string) : list string :=
  filter (fun f => negb (String.eqb f target_feature)) (numerical_features df).

(** A frame with one column of strings and a 0/1 target. *)
Definition city_df : DataFrame :=
  [("city", mkCol Object [Str "Pune"; Str "Agra"; Str "Pune"]);
   ("default_ind", mkCol Number (floats [0; 1; 0]%Z))].

(** A group whose key is a string. *)
Definition string_key (g : group) : Prop := exists s, fst g = Str s.

(** No two rows of a table carry the same bin. *)
Definition distinct_bins (rows : list er_row) : Prop :=
  ForallOrdPairs (fun r r' => value_eqb (Bin r) (Bin r') = false) rows.

(** The frame of the bivariate examples, with the user on the event-rate
    plot. *)
Definition event_rate_env (df : DataFrame) : env :=
  mkEnv (fun _ => None) (fun _ => 0) (fun _ => 1) (fun _ => 3)
        (fun _ => Ok df) reference_library.

(** What the profiling and correlation pages draw first. *)
Definition profiling_heading : list event :=
  [Header "Defaulter Profiling";
   Markdown "Analyze the average feature values for defaulters and non-defaulters."].

Definition correlation_heading : list event :=
  [Header "Correlation Matrix";
   Markdown "Visualize the pairwise correlations between numerical features."].

(** * Properties *)

(** ** The fallback chain of [safe_binning] *)

Lemma dropna_idempotent (s : Series) : dropna (dropna s) = dropna s.
Proof.
  unfold dropna. induction s as [|iv s IH]; simpl; trivial.
  destruct (isna (snd iv)) eqn:Hna; simpl.
  - exact IH.
  - rewrite Hna. simpl. now rewrite IH.
Qed.

Lemma dropna_In (s : Series) (i : nat) (v : value) :
  In (i, v) (dropna s) <-> In (i, v) s /\ isna v = false.
Proof.
  unfold dropna. rewrite filter_In. simpl.
  now rewrite negb_true_iff.
Qed.

Lemma safe_binning_chain lib (series : Series) (bins : nat) :
  safe_binning lib series bins =
  Ok (if empty (dropna series) then ([], [])
      else first_success
             ((if bins <? length (np_unique (dropna series))
               then [pd_qcut lib (dropna series) bins] else [])
                ++ [pd_cut (dropna series) bins])
             (identity_binning (dropna series))).
Proof.
  unfold safe_binning, identity_binning.
  destruct (empty (dropna series)); trivial.
  destruct (bins <? length (np_unique (dropna series))); simpl.
  - destruct (pd_qcut lib (dropna series) bins); simpl; trivial.
    destruct (pd_cut (dropna series) bins); trivial.
  - destruct (pd_cut (dropna series) bins); trivial.
Qed.

(** C1 (as amended).  [safe_binning] never raises: it returns the empty
    pair when nothing is left after [dropna], and otherwise the result of
    the first attempt that succeeds among quantile binning (attempted only
    when the number of distinct values exceeds the bin count), equal-width
    binning and identity binning. *)
Theorem safe_binning_never_raises_fallback_chain :
  forall lib (series : Series) (bins : nat),
  exists labels edges,
    safe_binning lib series bins = Ok (labels, edges)
    /\ (labels, edges) =
       if empty (dropna series) then ([], [])
       else first_success
              ((if bins <? length (np_unique (dropna series))
                then [pd_qcut lib (dropna series) bins] else [])
                 ++ [pd_cut (dropna series) bins])
              (identity_binning (dropna series)).
Proof.
  intros lib series bins. unfold safe_binning, identity_binning.
  destruct (empty (dropna series)).
  - exists [], []. split; reflexivity.
  - destruct (bins <? length (np_unique (dropna series))); cbn [app first_success].
    + destruct (pd_qcut lib (dropna series) bins) as [[labels edges]|e1];
        cbn [try_except].
      * exists labels, edges. split; reflexivity.
      * destruct (pd_cut (dropna series) bins) as [[labels edges]|e2];
          cbn [try_except]; eexists; eexists; split; reflexivity.
    + destruct (pd_cut (dropna series) bins) as [[labels edges]|e2];
        cbn [try_except]; eexists; eexists; split; reflexivity.
Qed.

(** C1, counterexample.  On the sample 1, 2, 10 with three bins the number
    of distinct values does not exceed the bin count, so quantile binning is
    not attempted although it would succeed: the code answers with the
    equal-width bins (0.991, 4], (4, 7], (7, 10] (1 and 2 share a bucket),
    the chain "quantile first" with the quantile bins (0.999, 1.667],
    (1.667, 4.667], (4.667, 10] (1 and 2 are apart). *)
Lemma safe_binning_skips_quantile_binning :
  safe_binning reference_library (range_series (floats [1; 2; 10]%Z)) 3 =
    Ok ([(0, Interval (f64 (991 # 1000)) (Fin 4));
         (1, Interval (f64 (991 # 1000)) (Fin 4));
         (2, Interval (Fin 7) (Fin 10))],
        [Num (f64 (991 # 1000)); Num (Fin 4); Num (Fin 7); Num (Fin 10)])
  /\ spec_safe_binning reference_library (range_series (floats [1; 2; 10]%Z)) 3 =
    Ok ([(0, Interval (f64 (999 # 1000)) (f64 (1667 # 1000)));
         (1, Interval (f64 (1667 # 1000)) (f64 (4667 # 1000)));
         (2, Interval (f64 (4667 # 1000)) (Fin 10))],
        [Num (Fin 1); Num (Fin (5 # 3)); Num (Fin (14 # 3)); Num (Fin 10)])
  /\ safe_binning reference_library (range_series (floats [1; 2; 10]%Z)) 3 <>
     spec_safe_binning reference_library (range_series (floats [1; 2; 10]%Z)) 3.
Proof.
  assert (H1 : safe_binning reference_library (range_series (floats [1; 2; 10]%Z)) 3 =
    Ok ([(0, Interval (f64 (991 # 1000)) (Fin 4));
         (1, Interval (f64 (991 # 1000)) (Fin 4));
         (2, Interval (Fin 7) (Fin 10))],
        [Num (f64 (991 # 1000)); Num (Fin 4); Num (Fin 7); Num (Fin 10)]))
    by (vm_compute; reflexivity).
  assert (H2 : spec_safe_binning reference_library (range_series (floats [1; 2; 10]%Z)) 3 =
    Ok ([(0, Interval (f64 (999 # 1000)) (f64 (1667 # 1000)));
         (1, Interval (f64 (1667 # 1000)) (f64 (4667 # 1000)));
         (2, Interval (f64 (4667 # 1000)) (Fin 10))],
        [Num (Fin 1); Num (Fin (5 # 3)); Num (Fin (14 # 3)); Num (Fin 10)]))
    by (vm_compute; reflexivity).
  repeat split; trivial.
  rewrite H1, H2. discriminate.
Qed.

(** ** What [safe_binning] drops *)

(** C3 (as amended).  [safe_binning] works on [series.dropna()]: exactly
    the missing cells are dropped before any binning (an infinite cell is
    not missing and stays), and when nothing is left the result is the pair
    of two empty sequences. *)
Theorem safe_binning_drops_missing_only :
  forall lib (series : Series) (bins : nat),
    safe_binning lib series bins = safe_binning lib (dropna series) bins
    /\ (forall i v, In (i, v) (dropna series) <-> In (i, v) series /\ isna v = false)
    /\ (forall i, In (i, Num PInf) series -> In (i, Num PInf) (dropna series))
    /\ (forall i, In (i, Num NInf) series -> In (i, Num NInf) (dropna series))
    /\ (dropna series = [] -> safe_binning lib series bins = Ok ([], [])).
Proof.
  intros lib series bins.
  split; [|split; [|split; [|split]]].
  - rewrite !safe_binning_chain, dropna_idempotent. reflexivity.
  - intros i v. apply dropna_In.
  - intros i H. now apply dropna_In.
  - intros i H. now apply dropna_In.
  - intros H. rewrite safe_binning_chain, H. reflexivity.
Qed.

Lemma safe_binning_drops_missing_only_witness :
  safe_binning reference_library (range_series [Num NaN; NoneV]) 10 = Ok ([], []).
Proof.
  apply (safe_binning_drops_missing_only reference_library (range_series [Num NaN; NoneV]) 10).
  reflexivity.
Defined.

(** With an infinite cell among numbers, equal-width binning always raises:
    the answer is what [pd.qcut] makes of the infinite sample, when it is
    attempted and succeeds, and the identity binning otherwise. *)
Lemma safe_binning_with_infinity lib (series : Series) (bins : nat) :
  existsb is_inf (values (dropna series)) = true ->
  safe_binning lib series bins =
  Ok (if bins <? length (np_unique (dropna series))
      then match pd_qcut lib (dropna series) bins with
           | Ok r => r
           | Raise _ => identity_binning (dropna series)
           end
      else identity_binning (dropna series)).
Proof.
  intros Hinf. rewrite safe_binning_chain.
  assert (Hne : empty (dropna series) = false).
  { destruct (dropna series); [discriminate|reflexivity]. }
  assert (Hcut : exists e, pd_cut (dropna series) bins = Raise e).
  { unfold pd_cut. rewrite Hne, Hinf.
    destruct (bins <? 1); [eexists; reflexivity|].
    destruct (existsb non_numeric (values (dropna series))); eexists; reflexivity. }
  destruct Hcut as [e Hcut]. rewrite Hne, Hcut.
  destruct (bins <? length (np_unique (dropna series))); cbn [app first_success];
    [|reflexivity].
  now destruct (pd_qcut lib (dropna series) bins).
Qed.

(** C3, counterexample.  A series holding one infinite cell: dropping the
    missing and the infinite cells would leave nothing, and the answer
    would be two empty sequences; the code keeps the cell and answers with
    its identity binning. *)
Lemma safe_binning_keeps_infinity :
  spec_drop_nonfinite (range_series [Num PInf]) = []
  /\ dropna (range_series [Num PInf]) = [(0, Num PInf)]
  /\ safe_binning reference_library (range_series [Num PInf]) 10 =
     Ok ([(0, Num PInf)], [Num PInf]).
Proof. repeat split. Qed.

(** ** Exceptions in the handlers *)

Lemma never_stops_emit (ev : event) : never_stops (emit ev).
Proof. discriminate. Qed.

Lemma never_stops_ret {A} (a : A) : never_stops (ret a).
Proof. discriminate. Qed.

Lemma never_stops_lift {A} (r : result A) : never_stops (lift r).
Proof. destruct r; discriminate. Qed.

Lemma never_stops_call {A} (E : env) (c : extcall) (a : A) : never_stops (call E c a).
Proof. unfold call. destruct (raises E c); discriminate. Qed.

Lemma never_stops_draw (E : env) (c : extcall) (ev : event) : never_stops (draw E c ev).
Proof. unfold draw. destruct (raises E c); discriminate. Qed.

Lemma never_stops_bind {A B} (m : UI A) (f : A -> UI B) :
  never_stops m -> (forall a, never_stops (f a)) -> never_stops (bind m f).
Proof.
  unfold never_stops, bind. intros Hm Hf.
  destruct m as [[a|e|] l]; simpl in *.
  - specialize (Hf a). destruct (f a) as [o l']. exact Hf.
  - discriminate.
  - contradiction.
Qed.

Create HintDb ui.
#[local] Hint Resolve never_stops_emit never_stops_ret never_stops_lift
  never_stops_call never_stops_draw : ui.

Ltac never_stops_tac :=
  repeat first
    [ apply never_stops_bind; [ | intro ]
    | solve [ auto with ui ] ].

Lemma plot_boxplot_body_never_stops E df x_feature y_feature :
  never_stops (plot_boxplot_body E df x_feature y_feature).
Proof. unfold plot_boxplot_body. never_stops_tac. Qed.

Lemma plot_event_rate_bar_body_never_stops E df x_feature y_feature n_bins_x :
  never_stops (plot_event_rate_bar_body E df x_feature y_feature n_bins_x).
Proof.
  unfold plot_event_rate_bar_body. never_stops_tac.
  destruct (paired_exclusion a a0) as [x y].
  destruct (empty x); never_stops_tac.
Qed.

(** A [try] block that cannot stop, guarded by a handler that reports the
    exception with [st.error], returns normally; when the block raised, the
    report follows what the block had drawn. *)
Lemma try_ui_reports (m : UI unit) (report : exn -> string) :
  never_stops m ->
  fst (try_ui m (fun e => emit (Error (report e)))) = Ret tt
  /\ forall e evs, m = (Exc e, evs) ->
       snd (try_ui m (fun e => emit (Error (report e)))) = evs ++ [Error (report e)].
Proof.
  unfold never_stops, try_ui. intros Hm.
  destruct m as [[[]|e|] l]; simpl in *.
  - split; trivial. intros e evs H. discriminate.
  - split; trivial. intros e' evs H. now inversion H.
  - contradiction.
Qed.

Lemma plot_boxplot_returns E df x_feature y_feature :
  fst (plot_boxplot E df x_feature y_feature) = Ret tt.
Proof.
  apply (try_ui_reports _ (fun e => ("❌ Could not plot boxplot: " ++ exn_msg e)%string)).
  apply plot_boxplot_body_never_stops.
Qed.

Lemma plot_event_rate_bar_returns E df x_feature y_feature n_bins_x :
  fst (plot_event_rate_bar E df x_feature y_feature n_bins_x) = Ret tt.
Proof.
  apply (try_ui_reports _
           (fun e => ("❌ Could not generate binning chart for "
                        ++ x_feature ++ ": " ++ exn_msg e)%string)).
  apply plot_event_rate_bar_body_never_stops.
Qed.

Lemma fst_bind {A B} (m : UI A) (f : A -> UI B) (a : A) :
  fst m = Ret a -> fst (bind m f) = fst (f a).
Proof.
  unfold bind. destruct m as [[a'|e|] l]; simpl; intros H; inversion H.
  subst. now destruct (f a).
Qed.

(** With its target column in the frame the bivariate page returns
    normally, whatever raises inside its plots. *)
Lemma bivariates_page_returns E df target_feature target :
  getcol df target_feature = Ok target ->
  fst (bivariates_page E df target_feature) = Ret tt.
Proof.
  intros Hcol. unfold bivariates_page. rewrite Hcol.
  rewrite !(fst_bind _ _ tt) by reflexivity.
  rewrite (fst_bind _ _ target) by reflexivity.
  destruct (is_target_binary_like target); [|reflexivity].
  rewrite !(fst_bind _ _ tt) by reflexivity.
  unfold st_sidebar_selectbox.
  erewrite fst_bind by reflexivity.
  destruct (opt_mem _ _); [|reflexivity].
  unfold st_radio. erewrite fst_bind by reflexivity.
  destruct (String.eqb _ BOXPLOT); [apply plot_boxplot_returns|].
  destruct (String.eqb _ EVENT_RATE); [|reflexivity].
  unfold st_slider. erewrite fst_bind by reflexivity.
  apply plot_event_rate_bar_returns.
Qed.

(** C2 (as amended).  The two plotting helpers of the bivariate page run
    their chart construction inside [try ... except Exception]: whatever
    external call raises, [plot_boxplot] and [plot_event_rate_bar] return
    normally, and the exception is shown as an [st.error] message after the
    elements already drawn; so the bivariate page, given its target column,
    returns normally too.  (The univariate, correlation and profiling
    handlers have no such guard.) *)
Theorem plot_helpers_report_exceptions :
  forall (E : env) (df : DataFrame) (x_feature y_feature : string) (n_bins_x : nat),
    (fst (plot_boxplot E df x_feature y_feature) = Ret tt
     /\ forall e evs,
          plot_boxplot_body E df x_feature y_feature = (Exc e, evs) ->
          snd (plot_boxplot E df x_feature y_feature) =
          evs ++ [Error ("❌ Could not plot boxplot: " ++ exn_msg e)%string])
    /\ (fst (plot_event_rate_bar E df x_feature y_feature n_bins_x) = Ret tt
        /\ forall e evs,
             plot_event_rate_bar_body E df x_feature y_feature n_bins_x = (Exc e, evs) ->
             snd (plot_event_rate_bar E df x_feature y_feature n_bins_x) =
             evs ++ [Error ("❌ Could not generate binning chart for "
                              ++ x_feature ++ ": " ++ exn_msg e)%string])
    /\ (forall target,
          getcol df y_feature = Ok target ->
          fst (bivariates_page E df y_feature) = Ret tt).
Proof.
  intros E df x_feature y_feature n_bins_x. split; [|split].
  - apply (try_ui_reports _ (fun e => ("❌ Could not plot boxplot: " ++ exn_msg e)%string)).
    apply plot_boxplot_body_never_stops.
  - apply (try_ui_reports _
             (fun e => ("❌ Could not generate binning chart for "
                          ++ x_feature ++ ": " ++ exn_msg e)%string)).
    apply plot_event_rate_bar_body_never_stops.
  - intros target. apply bivariates_page_returns.
Qed.

Lemma plot_helpers_report_exceptions_witness :
  snd (plot_boxplot (charts_fail sample_df) sample_df "age" "default_ind") =
  [] ++ [Error "❌ Could not plot boxplot: could not build the figure"].
Proof.
  exact (proj2 (proj1 (plot_helpers_report_exceptions
                         (charts_fail sample_df) sample_df "age" "default_ind" 5))
               figure_error [] eq_refl).
Defined.

(** C2, counterexample.  When the plotly constructors raise, the
    univariate, correlation and profiling handlers end with that exception:
    it leaves the handler uncaught and no message is drawn for it. *)
Lemma page_handlers_propagate_exceptions :
  univariate_analysis_page (charts_fail sample_df) sample_df =
    (Exc figure_error,
     [Header "Univariate Analysis";
      Markdown "Explore the distribution of individual features in your dataset.";
      Selectbox "Select a feature to analyze" ["age"; "default_ind"];
      Subheader "Distribution of age"])
  /\ correlation_page (charts_fail sample_df) sample_df =
    (Exc figure_error,
     [Header "Correlation Matrix";
      Markdown "Visualize the pairwise correlations between numerical features."])
  /\ defaulter_profiling_page (charts_fail sample_df) sample_df TARGET_FEATURE =
    (Exc figure_error,
     [Header "Defaulter Profiling";
      Markdown "Analyze the average feature values for defaulters and non-defaulters.";
      SidebarMarkdown "---";
      SidebarSubheader "Profiling Settings";
      SidebarSelectbox "Select Feature to Profile" ["age"];
      Subheader "Average age for Defaulters vs. Non-Defaulters"]).
Proof. repeat split. Qed.

(** ** No data left after the paired exclusion *)

(** C8.  When no row is left after the paired exclusion,
    [plot_event_rate_bar] returns normally, draws no table and no chart,
    and shows one warning. *)
Theorem plot_event_rate_bar_no_data :
  forall (E : env) (df : DataFrame) (x_feature y_feature : string) (n_bins_x : nat)
         (x0 y0 : Series),
    getitem df x_feature = Ok x0 ->
    getitem df y_feature = Ok y0 ->
    fst (paired_exclusion x0 y0) = [] ->
    plot_event_rate_bar E df x_feature y_feature n_bins_x =
    (Ret tt, [Warning ("No valid data to plot for " ++ x_feature ++ ".")%string]).
Proof.
  intros E df x_feature y_feature n_bins_x x0 y0 Hx Hy Hempty.
  unfold plot_event_rate_bar, plot_event_rate_bar_body.
  rewrite Hx, Hy. cbn [lift ret bind].
  destruct (paired_exclusion x0 y0) as [x y]. cbn [fst] in Hempty. subst x.
  cbn [empty emit try_ui app]. reflexivity.
Qed.

(** The scenario of the specification: feature NaN, NaN, NaN, target
    0, 1, 0, five bins. *)
Lemma plot_event_rate_bar_no_data_witness :
  plot_event_rate_bar (quiet_env nan_df) nan_df "feature" "default_ind" 5 =
  (Ret tt, [Warning "No valid data to plot for feature."]).
Proof.
  apply (plot_event_rate_bar_no_data (quiet_env nan_df) nan_df "feature" "default_ind" 5
           (range_series [Num NaN; Num NaN; Num NaN])
           (range_series (floats [0; 1; 0]%Z)));
    reflexivity.
Defined.

(** ** Start-up without the target column *)

(** C9.  When the file was read and no column is named [default_ind], the
    run shows the preamble and one message and ends there, by [st.stop()]
    after the [st.error] message (or, for a frame without any column, after
    the message that there is nothing to analyze): the navigation radio and
    the page views are never reached. *)
Theorem main_halts_without_target :
  forall (E : env) (df : DataFrame),
    read_csv E "data.csv" = Ok df ->
    mem TARGET_FEATURE (columns df) = false ->
    main E =
    match columns df with
    | [] =>
        (Ret tt,
         snd preamble
           ++ [Warning "The uploaded file does not contain any columns to analyze."])
    | _ =>
        (Stopped,
         snd preamble ++ [SidebarHeader "Navigation"; Error TARGET_NOT_FOUND])
    end.
Proof.
  intros E df Hread Hmem. unfold main. rewrite Hread.
  destruct (columns df) as [|c cs] eqn:Hcols.
  - reflexivity.
  - rewrite Hmem. reflexivity.
Qed.

Lemma main_halts_without_target_witness :
  main (quiet_env no_target_df) =
  (Stopped,
   [SetPageConfig "wide" "Bivariate Analysis Dashboard";
    Title "Bivariate Analysis Dashboard";
    Markdown intro_text;
    SidebarHeader "Navigation";
    Error TARGET_NOT_FOUND]).
Proof.
  apply (main_halts_without_target (quiet_env no_target_df) no_target_df); reflexivity.
Defined.

(** ** The plot types of the bivariate page *)

Lemma bivariates_page_unsuitable E df target_feature target :
  getcol df target_feature = Ok target ->
  is_target_binary_like target = false ->
  bivariates_page E df target_feature = (Ret tt, bivariate_heading ++ [Warning NOT_SUITABLE]).
Proof.
  intros Hcol Hs. unfold bivariates_page. rewrite Hcol. simpl. rewrite Hs. reflexivity.
Qed.

Lemma bivariates_page_not_numeric E df target_feature target :
  getcol df target_feature = Ok target ->
  is_target_binary_like target = true ->
  opt_mem (bivariate_selection E df target_feature) (numerical_features df) = false ->
  bivariates_page E df target_feature =
  (Ret tt,
   bivariate_heading ++ bivariate_sidebar df target_feature ++ [Warning SELECT_NUMERIC]).
Proof.
  intros Hcol Hs Hsel. unfold bivariates_page. rewrite Hcol. simpl. rewrite Hs.
  unfold bivariate_selection in Hsel. simpl. rewrite Hsel. reflexivity.
Qed.

Lemma bivariates_page_numeric E df target_feature target :
  getcol df target_feature = Ok target ->
  is_target_binary_like target = true ->
  opt_mem (bivariate_selection E df target_feature) (numerical_features df) = true ->
  exists rest,
    snd (bivariates_page E df target_feature) =
    bivariate_heading ++ bivariate_sidebar df target_feature
      ++ Radio "Choose Plot Type" [BOXPLOT; EVENT_RATE] :: rest.
Proof.
  intros Hcol Hs Hsel. unfold bivariates_page. rewrite Hcol. simpl. rewrite Hs.
  unfold bivariate_selection in Hsel. simpl. rewrite Hsel.
  unfold st_radio. simpl.
  match goal with
  | |- context [if ?c then ?a else ?b] => destruct (if c then a else b) as [o l]
  end.
  simpl. eexists. reflexivity.
Qed.

(** C10.  On the bivariate page the radio that offers the box plot and the
    event-rate plot is drawn exactly when the target column has a numeric
    dtype and at most ten distinct values and the selected feature is one
    of the numerical features.  For any other target the page is its
    heading and a warning; for a suitable target and a selection that is not
    numeric it is the heading, the sidebar and a warning.  Neither draws a
    chart or a table. *)
Theorem bivariates_page_plot_types :
  forall (E : env) (df : DataFrame) (target_feature : string) (target : column),
    getcol df target_feature = Ok target ->
    (In (Radio "Choose Plot Type" [BOXPLOT; EVENT_RATE])
        (snd (bivariates_page E df target_feature))
     <-> (is_numeric_dtype target = true /\ nunique target <= 10)
         /\ opt_mem (bivariate_selection E df target_feature)
                    (numerical_features df) = true)
    /\ (~ (is_numeric_dtype target = true /\ nunique target <= 10) ->
        bivariates_page E df target_feature =
        (Ret tt, bivariate_heading ++ [Warning NOT_SUITABLE]))
    /\ ((is_numeric_dtype target = true /\ nunique target <= 10) ->
        opt_mem (bivariate_selection E df target_feature)
                (numerical_features df) = false ->
        bivariates_page E df target_feature =
        (Ret tt,
         bivariate_heading ++ bivariate_sidebar df target_feature
           ++ [Warning SELECT_NUMERIC])).
Proof.
  intros E df target_feature target Hcol.
  assert (Hsuit : is_target_binary_like target = true
                  <-> is_numeric_dtype target = true /\ nunique target <= 10).
  { unfold is_target_binary_like. rewrite andb_true_iff, Nat.leb_le. reflexivity. }
  split; [|split].
  - split.
    + intros Hin.
      destruct (is_target_binary_like target) eqn:Hs.
      * split; [now apply Hsuit|].
        destruct (opt_mem (bivariate_selection E df target_feature)
                          (numerical_features df)) eqn:Hsel; trivial.
        rewrite (bivariates_page_not_numeric E df target_feature target Hcol Hs Hsel)
          in Hin.
        simpl in Hin. intuition discriminate.
      * rewrite (bivariates_page_unsuitable E df target_feature target Hcol Hs) in Hin.
        simpl in Hin. intuition discriminate.
    + intros [Hs Hsel]. apply Hsuit in Hs.
      destruct (bivariates_page_numeric E df target_feature target Hcol Hs Hsel)
        as [rest Hrest].
      rewrite Hrest. simpl. auto 10.
  - intros Hns. apply (bivariates_page_unsuitable E df target_feature target Hcol).
    destruct (is_target_binary_like target); trivial.
    exfalso. apply Hns. now apply Hsuit.
  - intros Hs Hsel. apply Hsuit in Hs.
    now apply (bivariates_page_not_numeric E df target_feature target Hcol).
Qed.

Lemma bivariates_page_plot_types_witness :
  bivariates_page (quiet_env labels_df) labels_df "default_ind" =
  (Ret tt, bivariate_heading ++ [Warning NOT_SUITABLE]).
Proof.
  refine (proj1 (proj2 (bivariates_page_plot_types (quiet_env labels_df) labels_df
                          "default_ind" (mkCol Object [Str "yes"; Str "no"; Str "yes"])
                          eq_refl)) _).
  intros [H _]. discriminate H.
Defined.

(** ** Alignment of Series *)

Lemma index_map_snd (f : nat * value -> value) (s : Series) :
  index (map (fun iv => (fst iv, f iv)) s) = index s.
Proof.
  unfold index. rewrite map_map. reflexivity.
Qed.

Lemma index_filter_fst (p : nat -> bool) (s : Series) :
  index (filter (fun iv => p (fst iv)) s) = filter p (index s).
Proof.
  unfold index. induction s as [|[i v] s IH]; simpl; trivial.
  destruct (p i); simpl; now rewrite IH.
Qed.

Lemma index_range_series (l : list value) : index (range_series l) = seq 0 (length l).
Proof.
  unfold index, range_series.
  generalize 0. induction l as [|v l IH]; intros k; simpl; trivial.
  now rewrite IH.
Qed.

Lemma loc_In (s : Series) (i : nat) (v : value) : loc i s = Some v -> In (i, v) s.
Proof.
  induction s as [|[j w] s IH]; simpl; [discriminate|].
  destruct (i =? j) eqn:Hij.
  - apply Nat.eqb_eq in Hij. intros H. inversion H. subst. now left.
  - intros H. right. now apply IH.
Qed.

Lemma In_loc (s : Series) (i : nat) (v : value) :
  NoDup (index s) -> In (i, v) s -> loc i s = Some v.
Proof.
  unfold index. induction s as [|[j w] s IH]; simpl; [contradiction|].
  intros Hnd [H|H].
  - inversion H. subst. now rewrite Nat.eqb_refl.
  - inversion Hnd as [|? ? Hnotin Hnd']. subst.
    destruct (i =? j) eqn:Hij.
    + apply Nat.eqb_eq in Hij. subst. exfalso. apply Hnotin.
      change j with (fst (j, v)). now apply in_map.
    + now apply IH.
Qed.

Lemma loc_combine_seq (l : list value) (k i : nat) :
  loc i (combine (seq k (length l)) l) =
  if k <=? i then nth_error l (i - k) else None.
Proof.
  revert k. induction l as [|v l IH]; intros k; simpl.
  - destruct (k <=? i); trivial. now destruct (i - k).
  - destruct (i =? k) eqn:Hik.
    + apply Nat.eqb_eq in Hik. subst. rewrite Nat.leb_refl, Nat.sub_diag. reflexivity.
    + apply Nat.eqb_neq in Hik. rewrite IH.
      destruct (k <=? i) eqn:Hle.
      * apply Nat.leb_le in Hle.
        assert (Hlt : S k <= i) by lia. apply Nat.leb_le in Hlt. rewrite Hlt.
        replace (i - k) with (S (i - S k)) by lia. reflexivity.
      * apply Nat.leb_gt in Hle.
        assert (Hgt : i < S k) by lia. apply Nat.leb_gt in Hgt. now rewrite Hgt.
Qed.

Lemma loc_range_series (l : list value) (i : nat) :
  loc i (range_series l) = nth_error l i.
Proof.
  unfold range_series. rewrite loc_combine_seq. simpl. now rewrite Nat.sub_0_r.
Qed.

Lemma NoDup_index_range_series (l : list value) : NoDup (index (range_series l)).
Proof. rewrite index_range_series. apply seq_NoDup. Qed.

Lemma loc_map_cells (f : value -> value) (s : Series) (i : nat) :
  loc i (map (fun iv => (fst iv, f (snd iv))) s) = option_map f (loc i s).
Proof.
  induction s as [|[j w] s IH]; simpl; trivial.
  destruct (i =? j); trivial.
Qed.

Lemma mask_at_map (g : value -> bool) (s : Series) (i : nat) :
  mask_at i (map (fun iv => (fst iv, g (snd iv))) s) = option_map g (loc i s).
Proof.
  induction s as [|[j w] s IH]; simpl; trivial.
  destruct (i =? j); trivial.
Qed.

Lemma mask_at_not_isna (s : Series) (i : nat) :
  mask_at i (mask_not (isna_series s)) = option_map (fun v => negb (isna v)) (loc i s).
Proof.
  unfold mask_not, isna_series. rewrite map_map. simpl.
  apply (mask_at_map (fun v => negb (isna v))).
Qed.

Lemma mask_at_and (a b : Mask) (i : nat) :
  mask_at i (mask_and a b) =
  option_map (fun c => c && match mask_at i b with Some d => d | None => false end)
             (mask_at i a).
Proof.
  unfold mask_and. induction a as [|[j c] a IH]; simpl; trivial.
  destruct (i =? j) eqn:Hij; trivial.
  apply Nat.eqb_eq in Hij. now subst.
Qed.

Lemma paired_exclusion_filter (x0 y0 : Series) :
  paired_exclusion x0 y0 =
  (filter (fun iv => retained x0 y0 (fst iv)) (replace_inf x0),
   filter (fun iv => retained x0 y0 (fst iv)) y0).
Proof.
  unfold paired_exclusion, getmask.
  assert (H : forall i,
             match mask_at i (mask_and (mask_not (isna_series (replace_inf x0)))
                                       (mask_not (isna_series y0))) with
             | Some b => b
             | None => false
             end = retained x0 y0 i).
  { intros i. rewrite mask_at_and, !mask_at_not_isna.
    unfold replace_inf, retained. rewrite loc_map_cells.
    destruct (loc i x0); simpl; trivial.
    destruct (loc i y0); simpl; trivial.
    now rewrite andb_false_r. }
  f_equal; apply filter_ext; intros iv; apply H.
Qed.

Lemma filter_seq_irrelevant (p : nat -> bool) (k n : nat) :
  k <= n -> (forall i, k <= i -> p i = false) ->
  filter p (seq 0 n) = filter p (seq 0 k).
Proof.
  intros Hle Hp. replace n with (k + (n - k)) by lia.
  rewrite seq_app, filter_app. simpl.
  assert (H : filter p (seq k (n - k)) = []).
  { generalize (n - k) as m. intros m.
    assert (G : forall m j, k <= j -> filter p (seq j m) = []).
    { clear m. induction m as [|m IH]; intros j Hj; simpl; trivial.
      rewrite (Hp j Hj). apply IH. lia. }
    apply G. lia. }
  rewrite H. apply app_nil_r.
Qed.

Lemma retained_bound (l m : list value) (i : nat) :
  Nat.min (length l) (length m) <= i ->
  retained (range_series l) (range_series m) i = false.
Proof.
  intros H. unfold retained. rewrite !loc_range_series.
  destruct (nth_error l i) eqn:Hl; trivial.
  destruct (nth_error m i) eqn:Hm; trivial.
  assert (i < length l) by (apply nth_error_Some; congruence).
  assert (i < length m) by (apply nth_error_Some; congruence).
  lia.
Qed.

(** The two columns keep the same index labels: the rows stay paired. *)
Lemma paired_exclusion_index (l m : list value) :
  index (fst (paired_exclusion (range_series l) (range_series m))) =
  index (snd (paired_exclusion (range_series l) (range_series m))).
Proof.
  rewrite paired_exclusion_filter. simpl.
  rewrite !index_filter_fst. unfold replace_inf.
  rewrite (index_map_snd (fun iv => replace_inf_cell (snd iv))).
  rewrite !index_range_series.
  rewrite (filter_seq_irrelevant _ (Nat.min (length l) (length m)) (length l));
    [|lia|apply retained_bound].
  rewrite (filter_seq_irrelevant _ (Nat.min (length l) (length m)) (length m));
    [|lia|apply retained_bound].
  reflexivity.
Qed.

Lemma NoDup_filter {A} (p : A -> bool) (l : list A) : NoDup l -> NoDup (filter p l).
Proof.
  induction 1 as [|a l Hnotin Hnd IH]; simpl; [constructor|].
  destruct (p a); trivial. constructor; trivial.
  intros Hin. apply Hnotin. now apply filter_In in Hin.
Qed.

Lemma paired_exclusion_NoDup (l m : list value) :
  NoDup (index (snd (paired_exclusion (range_series l) (range_series m)))).
Proof.
  rewrite paired_exclusion_filter. simpl. rewrite index_filter_fst.
  apply NoDup_filter, NoDup_index_range_series.
Qed.

(** ** Binning keeps the index *)

Lemma bins_to_cuts_index series bins include_lowest dup xb e :
  bins_to_cuts series bins include_lowest dup = Ok (xb, e) -> index xb = index series.
Proof.
  unfold bins_to_cuts, cuts.
  destruct (length bins <? 2); [discriminate|].
  destruct ((length (unique_bins bins) <? length bins) && negb (length bins =? 2));
    [destruct dup|]; intros H; inversion H; subst;
    apply (index_map_snd (fun iv => cut_label _ include_lowest (snd iv))).
Qed.

Lemma qcut_open_index lib series q xb e :
  qcut_open lib series q = Ok (xb, e) -> index xb = index series.
Proof.
  unfold qcut_open, label_with.
  destruct (qcut_nonfinite lib (values series) q) as [[f edges]|]; [|discriminate].
  intros H. inversion H. subst.
  apply (index_map_snd (fun iv => f (snd iv))).
Qed.

Lemma pd_cut_index series bins xb e :
  pd_cut series bins = Ok (xb, e) -> index xb = index series.
Proof.
  unfold pd_cut.
  destruct (bins <? 1); [discriminate|].
  destruct (empty series); [discriminate|].
  destruct (existsb non_numeric (values series)); [discriminate|].
  destruct (existsb is_inf (values series)); [discriminate|].
  destruct (finite_values (values series)); [discriminate|].
  destruct (all_finite _); [|discriminate].
  apply bins_to_cuts_index.
Qed.

Lemma pd_qcut_index lib series q xb e :
  pd_qcut lib series q = Ok (xb, e) -> index xb = index series.
Proof.
  unfold pd_qcut.
  destruct (existsb non_numeric (values series)); [discriminate|].
  destruct (existsb is_inf (values series)); [apply qcut_open_index|].
  destruct (finite_values (values series)); [discriminate|].
  destruct (all_finite _); [apply bins_to_cuts_index|apply qcut_open_index].
Qed.

(** On a series without infinite cells the labels [safe_binning] returns
    carry the index of the cells that are not missing. *)
Lemma safe_binning_index lib series bins xb e :
  safe_binning lib series bins = Ok (xb, e) ->
  index xb = index (dropna series).
Proof.
  rewrite safe_binning_chain. intros H. inversion H as [H'].
  clear H. revert H'.
  destruct (empty (dropna series)) eqn:Hempty.
  - intros H. inversion H. destruct (dropna series); [reflexivity|discriminate].
  - destruct (bins <? length (np_unique (dropna series))); simpl.
    + destruct (pd_qcut lib (dropna series) bins) as [[xb' e']|] eqn:Hq.
      * intros H. inversion H. subst. now apply (pd_qcut_index lib _ bins _ e).
      * destruct (pd_cut (dropna series) bins) as [[xb' e']|] eqn:Hc.
        -- intros H. inversion H. subst. now apply (pd_cut_index _ bins _ e).
        -- unfold identity_binning. intros H. now inversion H.
    + destruct (pd_cut (dropna series) bins) as [[xb' e']|] eqn:Hc.
      * intros H. inversion H. subst. now apply (pd_cut_index _ bins _ e).
      * unfold identity_binning. intros H. now inversion H.
Qed.

(** ** The binned frame *)

Lemma reindex_self (s : Series) : NoDup (index s) -> reindex (index s) s = s.
Proof.
  unfold reindex, index. induction s as [|[i v] s IH]; simpl; trivial.
  intros Hnd. inversion Hnd as [|? ? Hnotin Hnd']. subst.
  rewrite Nat.eqb_refl. f_equal.
  rewrite <- (IH Hnd') at 2. apply map_ext_in.
  intros j Hj. destruct (j =? i) eqn:Hji; trivial.
  apply Nat.eqb_eq in Hji. subst. contradiction.
Qed.

Lemma union_index_self (idx : list nat) : union_index idx idx = idx.
Proof.
  unfold union_index.
  assert (H : filter (fun i => negb (existsb (Nat.eqb i) idx)) idx = []).
  { assert (G : forall l, incl l idx ->
                  filter (fun i => negb (existsb (Nat.eqb i) idx)) l = []).
    { induction l as [|a l IH]; intros Hincl; simpl; trivial.
      assert (Ha : existsb (Nat.eqb a) idx = true).
      { apply existsb_exists. exists a. split; [apply Hincl; now left|apply Nat.eqb_refl]. }
      rewrite Ha. simpl. apply IH. intros b Hb. apply Hincl. now right. }
    apply G, incl_refl. }
  rewrite H. apply app_nil_r.
Qed.

Lemma union_index_nil (idx : list nat) : union_index [] idx = idx.
Proof.
  unfold union_index. simpl. induction idx as [|i idx IH]; simpl; trivial.
  now rewrite IH.
Qed.

(** The frame of lines 73-75 when both columns carry the same index: the
    rows are grouped by the printed bin label, or by the target itself when
    the target column goes by the name "x_bin" and so replaces the labels
    in the dict. *)
Lemma binned_frame_groupby (x_binned y : Series) (y_feature : string) :
  index x_binned = index y -> NoDup (index y) ->
  groupby_agg (frame_of_dict (dict_set y_feature y [("x_bin", astype_str x_binned)]))
              "x_bin" y_feature =
  result_map agg_mean_count
    (groups_of (combine (values (if String.eqb y_feature "x_bin"
                                 then y else astype_str x_binned))
                        (values y))).
Proof.
  intros Hidx Hnd.
  assert (Hidx' : index (astype_str x_binned) = index y).
  { unfold astype_str.
    now rewrite (index_map_snd (fun iv => astype_str_cell (snd iv))). }
  unfold groupby_agg, frame_of_dict.
  cbn [dict_set].
  destruct (String.eqb y_feature "x_bin") eqn:Heq.
  - cbn [fold_left map fst snd dict_get].
    rewrite union_index_nil, (reindex_self y Hnd).
    rewrite String.eqb_refl, Heq. reflexivity.
  - cbn [fold_left map fst snd dict_get dict_set].
    rewrite union_index_nil, Hidx', union_index_self.
    rewrite (reindex_self y Hnd).
    rewrite <- Hidx' at 1. rewrite reindex_self by (now rewrite Hidx').
    rewrite !String.eqb_refl, Heq. reflexivity.
Qed.

(** ** Groups and their aggregates *)

Lemma add_row_total (k v : value) (gs : list group) :
  total_size (add_row k v gs) = S (total_size gs).
Proof.
  unfold total_size, group_size.
  induction gs as [|[k' vs] gs IH]; simpl; trivial.
  destruct (value_eqb k k'); simpl.
  - rewrite length_app. simpl. lia.
  - rewrite IH. lia.
Qed.

Lemma add_row_Forall (P : value -> Prop) (k v : value) (gs : list group) :
  P v ->
  Forall (fun g => snd g <> [] /\ Forall P (snd g)) gs ->
  Forall (fun g => snd g <> [] /\ Forall P (snd g)) (add_row k v gs).
Proof.
  intros Hv. induction 1 as [|[k' vs] gs [Hne Hvs] Hgs IH]; simpl.
  - constructor; [|constructor]. simpl. split; [discriminate|now constructor].
  - destruct (value_eqb k k'); constructor; trivial; simpl in *.
    + split.
      * destruct vs; discriminate.
      * apply Forall_app. split; trivial. now constructor.
    + now split.
Qed.

Lemma insert_group_Permutation (g : group) (gs : list group) :
  Permutation (insert_group g gs) (g :: gs).
Proof.
  induction gs as [|h gs IH]; simpl; [apply Permutation_refl|].
  destruct (key_leb (fst g) (fst h)); [apply Permutation_refl|].
  apply perm_trans with (h :: g :: gs); [now apply perm_skip|apply perm_swap].
Qed.

(** Sorting the groups rearranges them and nothing else. *)
Lemma sort_groups_Permutation (gs : list group) : Permutation (sort_groups gs) gs.
Proof.
  unfold sort_groups. induction gs as [|g gs IH]; simpl; [apply perm_nil|].
  apply perm_trans with (g :: fold_right insert_group [] gs).
  - apply insert_group_Permutation.
  - now apply perm_skip.
Qed.

Lemma total_size_Permutation (gs gs' : list group) :
  Permutation gs gs' -> total_size gs = total_size gs'.
Proof.
  unfold total_size. induction 1; simpl; lia.
Qed.

(** The rows whose key is present. *)
Lemma collect_groups_total_gen (rows : list (value * value)) (gs : list group) :
  total_size (fold_left (fun gs kv => if isna (fst kv) then gs
                                      else add_row (fst kv) (snd kv) gs) rows gs)
  = total_size gs + length (filter (fun kv => negb (isna (fst kv))) rows).
Proof.
  revert gs. induction rows as [|[k v] rows IH]; intros gs; simpl.
  - lia.
  - rewrite IH. destruct (isna k); simpl; [lia|]. rewrite add_row_total. lia.
Qed.

(** Every row whose key is present lands in exactly one group, the others
    in none. *)
Lemma groups_of_total_present (rows : list (value * value)) :
  total_size (groups_of rows) = length (filter (fun kv => negb (isna (fst kv))) rows).
Proof.
  unfold groups_of.
  rewrite (total_size_Permutation _ _ (sort_groups_Permutation _)).
  unfold collect_groups. now rewrite collect_groups_total_gen.
Qed.

Lemma groups_of_total (rows : list (value * value)) :
  Forall (fun kv => isna (fst kv) = false) rows ->
  total_size (groups_of rows) = length rows.
Proof.
  intros H. rewrite groups_of_total_present. f_equal.
  induction H as [|[k v] rows Hk Hrows IH]; simpl; trivial.
  simpl in Hk. rewrite Hk. simpl. now rewrite IH.
Qed.

Lemma groups_of_Forall_gen (P : value -> Prop) (rows : list (value * value))
    (gs : list group) :
  Forall (fun kv => P (snd kv)) rows ->
  Forall (fun g => snd g <> [] /\ Forall P (snd g)) gs ->
  Forall (fun g => snd g <> [] /\ Forall P (snd g))
         (fold_left (fun gs kv => if isna (fst kv) then gs
                                  else add_row (fst kv) (snd kv) gs) rows gs).
Proof.
  intros H. revert gs. induction H as [|[k v] rows Hv Hrows IH]; intros gs Hgs; simpl.
  - exact Hgs.
  - apply IH. destruct (isna k); trivial. now apply add_row_Forall.
Qed.

(** No group is empty, and a property of all aggregated cells holds inside
    every group. *)
Lemma groups_of_Forall (P : value -> Prop) (rows : list (value * value)) :
  Forall (fun kv => P (snd kv)) rows ->
  Forall (fun g => snd g <> [] /\ Forall P (snd g)) (groups_of rows).
Proof.
  intros H. unfold groups_of.
  apply (Permutation_Forall (Permutation_sym (sort_groups_Permutation _))).
  unfold collect_groups. apply groups_of_Forall_gen; trivial.
Qed.

Lemma present_filter (vs : list value) :
  Forall present_number vs -> filter (fun v => negb (isna v)) vs = vs.
Proof.
  induction 1 as [|v vs [x [Hv Hx]] Hvs IH]; simpl; trivial.
  subst v. destruct x; simpl; now rewrite ?IH.
Qed.

Lemma present_numeric_cells (vs : list value) :
  Forall present_number vs ->
  exists xs, numeric_cells vs = Some xs /\ map Num xs = vs.
Proof.
  induction 1 as [|v vs [x [Hv Hx]] Hvs [xs [IH1 IH2]]]; simpl.
  - now exists [].
  - subst v. rewrite IH1. exists (x :: xs). simpl. now rewrite IH2.
Qed.

(** The aggregate of a group of present numbers. *)
Lemma agg_present (g : group) :
  Forall present_number (snd g) ->
  exists xs,
    map Num xs = snd g
    /\ agg_mean_count g =
       Ok (mkRow (fst g) (fdiv_nat (fold_left fadd xs (Fin 0)) (length xs))
                 (group_size g)).
Proof.
  intros H. unfold agg_mean_count. rewrite (present_filter _ H).
  destruct (present_numeric_cells _ H) as [xs [H1 H2]].
  exists xs. split; trivial. rewrite H1. unfold group_size.
  rewrite <- H2, length_map. reflexivity.
Qed.

Lemma result_map_Forall2 {A B} (f : A -> result B) (Q : A -> B -> Prop) (l : list A) :
  Forall (fun a => exists b, f a = Ok b /\ Q a b) l ->
  exists bs, result_map f l = Ok bs /\ Forall2 Q l bs.
Proof.
  induction 1 as [|a l [b [Hb HQ]] Hl [bs [IH1 IH2]]]; simpl.
  - exists []. split; trivial.
  - rewrite Hb, IH1. exists (b :: bs). split; trivial. now constructor.
Qed.

Lemma Forall2_counts (gs : list group) (rows : list er_row) :
  Forall2 (fun g r => Count r = group_size g) gs rows ->
  list_sum (map Count rows) = total_size gs.
Proof.
  unfold total_size. induction 1 as [|g r gs rows H Hrest IH]; simpl; trivial.
  now rewrite H, IH.
Qed.

Lemma isna_astype_str_cell (v : value) : isna (astype_str_cell v) = isna v.
Proof. unfold astype_str_cell. destruct (isna v) eqn:H; [exact H|reflexivity]. Qed.

Lemma Forall_combine_l {A B} (P : A -> Prop) (l : list A) (m : list B) :
  Forall P l -> Forall (fun ab => P (fst ab)) (combine l m).
Proof.
  intros H. revert m. induction H as [|a l Ha Hl IH]; intros [|b m]; simpl;
    constructor; auto.
Qed.

Lemma Forall_combine_r {A B} (P : B -> Prop) (l : list A) (m : list B) :
  Forall P m -> Forall (fun ab => P (snd ab)) (combine l m).
Proof.
  intros H. revert l. induction H as [|b m Hb Hm IH]; intros [|a l]; simpl;
    constructor; auto.
Qed.

(** The rows of the binned frame whose printed label is present are the
    rows that have a label. *)
Lemma printed_keys_present (xb : Series) (ys : list value) :
  length xb = length ys ->
  length (filter (fun kv => negb (isna (fst kv)))
                 (combine (values (astype_str xb)) ys))
  = length (dropna xb).
Proof.
  unfold values, astype_str, dropna. revert ys.
  induction xb as [|[i v] xb IH]; intros [|t ys] Hlen; simpl in *; try discriminate;
    trivial.
  rewrite isna_astype_str_cell. destruct (isna v); simpl; rewrite IH; auto.
Qed.

(** ** The event-rate table of two numeric columns *)

Section NumericColumns.

Variables feature target : list fval.

Let x0 : Series := range_series (map Num feature).
Let y0 : Series := range_series (map Num target).
Let x : Series := fst (paired_exclusion x0 y0).
Let y : Series := snd (paired_exclusion x0 y0).

Lemma retained_x_In (i : nat) (v : value) :
  In (i, v) x ->
  exists q, v = Num (Fin q) /\ nth_error feature i = Some (Fin q)
            /\ retained x0 y0 i = true.
Proof.
  unfold x. rewrite paired_exclusion_filter. simpl.
  rewrite filter_In. simpl. intros [Hin Hret].
  unfold replace_inf in Hin. apply in_map_iff in Hin.
  destruct Hin as [[j w] [Heq Hin]]. simpl in Heq. inversion Heq. subst. clear Heq.
  assert (Hloc : loc i x0 = Some w)
    by (apply In_loc; [apply NoDup_index_range_series|exact Hin]).
  pose proof Hloc as Hnth. unfold x0 in Hnth. rewrite loc_range_series in Hnth.
  rewrite nth_error_map in Hnth.
  destruct (nth_error feature i) as [f|] eqn:Hf; [|discriminate].
  simpl in Hnth. inversion Hnth. subst w.
  pose proof Hret as Hkeep.
  unfold retained in Hret. rewrite Hloc in Hret.
  destruct (loc i y0); [|discriminate].
  apply andb_true_iff in Hret. destruct Hret as [Hret _].
  destruct f as [q| | |]; simpl in Hret; try discriminate.
  exists q. repeat split; trivial.
Qed.

Lemma retained_y_In (i : nat) (t : value) :
  In (i, t) y ->
  exists u, t = Num u /\ u <> NaN /\ nth_error target i = Some u
            /\ retained x0 y0 i = true.
Proof.
  unfold y. rewrite paired_exclusion_filter. simpl.
  rewrite filter_In. simpl. intros [Hin Hret].
  assert (Hloc : loc i y0 = Some t)
    by (apply In_loc; [apply NoDup_index_range_series|exact Hin]).
  pose proof Hloc as Hnth. unfold y0 in Hnth. rewrite loc_range_series in Hnth.
  rewrite nth_error_map in Hnth.
  destruct (nth_error target i) as [u|] eqn:Hu; [|discriminate].
  simpl in Hnth. inversion Hnth. subst t.
  exists u. split; [reflexivity|]. split; [|split; trivial].
  unfold retained in Hret. rewrite Hloc in Hret.
  destruct (loc i x0); [|discriminate].
  apply andb_true_iff in Hret. destruct Hret as [_ Hret].
  intros ->. discriminate.
Qed.

Lemma retained_index_iff (i : nat) :
  In i (index x) <-> retained x0 y0 i = true.
Proof.
  unfold x. rewrite paired_exclusion_filter. simpl.
  rewrite index_filter_fst, filter_In. unfold replace_inf.
  rewrite (index_map_snd (fun iv => replace_inf_cell (snd iv))).
  unfold x0 at 1. rewrite index_range_series, in_seq.
  split; [tauto|]. intros H. split; trivial.
  unfold retained in H. unfold x0 in H. rewrite loc_range_series in H.
  destruct (nth_error (map Num feature) i) eqn:Hn; [|discriminate].
  assert (i < length (map Num feature)) by (apply nth_error_Some; congruence).
  lia.
Qed.

Lemma retained_spec (i : nat) :
  retained x0 y0 i = true <->
  exists q u, nth_error feature i = Some (Fin q)
              /\ nth_error target i = Some u /\ u <> NaN.
Proof.
  unfold retained, x0, y0. rewrite !loc_range_series, !nth_error_map.
  destruct (nth_error feature i) as [f|]; simpl.
  - destruct (nth_error target i) as [u|]; simpl.
    + rewrite andb_true_iff, !negb_true_iff. split.
      * intros [Hf Hu].
        destruct f as [q| | |]; try discriminate.
        exists q, u. repeat split; trivial. intros ->. discriminate.
      * intros [q [u' [Hf [Hu Hne]]]]. inversion Hf. inversion Hu. subst.
        split; trivial. destruct u'; trivial. contradiction.
    + split; [discriminate|]. intros [q [u [_ [H _]]]]. discriminate.
  - split; [discriminate|]. intros [q [u [H _]]]. discriminate.
Qed.

Lemma x_cells_finite : Forall (fun v => exists q, v = Num (Fin q)) (values x).
Proof.
  apply Forall_forall. intros v Hv. unfold values in Hv.
  apply in_map_iff in Hv. destruct Hv as [[i w] [Heq Hin]]. simpl in Heq. subst w.
  destruct (retained_x_In i v Hin) as [q [Hq _]]. now exists q.
Qed.

Lemma y_cells_present : Forall present_number (values y).
Proof.
  apply Forall_forall. intros v Hv. unfold values in Hv.
  apply in_map_iff in Hv. destruct Hv as [[i w] [Heq Hin]]. simpl in Heq. subst w.
  destruct (retained_y_In i v Hin) as [u [Hu [Hne _]]]. now exists u.
Qed.

Lemma finite_cells_dropna (s : Series) :
  Forall (fun v => exists q, v = Num (Fin q)) (values s) ->
  dropna s = s /\ existsb is_inf (values s) = false
  /\ existsb non_numeric (values s) = false.
Proof.
  unfold values, dropna. induction s as [|[i v] s IH]; simpl; intros H.
  - repeat split.
  - inversion H as [|? ? [q Hq] Hrest]. subst.
    destruct (IH Hrest) as [H1 [H2 H3]]. simpl. rewrite H1, H2, H3. repeat split.
Qed.

Variable lib : library.

(** The table is the aggregate of groups that hold cells of the retained
    target column: one group for each printed label, made of the retained
    rows that [safe_binning] labelled with it; the rows it left without a
    label (NaN) are in no group.  (Should the target column go by the name
    "x_bin", it replaces the labels and every retained row is in a
    group.) *)
Lemma event_rate_df_groups (y_feature : string) (n_bins_x : nat) :
  exists x_binned edges gs rows,
    safe_binning lib x n_bins_x = Ok (x_binned, edges)
    /\ index x_binned = index x
    /\ event_rate_df lib x y y_feature n_bins_x = Ok rows
    /\ total_size gs = (if String.eqb y_feature "x_bin" then length x
                        else length (dropna x_binned))
    /\ Forall (fun g => snd g <> [] /\ Forall (fun v => In v (values y)) (snd g)) gs
    /\ Forall2 (fun g r =>
                  exists xs, map Num xs = snd g
                             /\ r = mkRow (fst g)
                                          (fdiv_nat (fold_left fadd xs (Fin 0)) (length xs))
                                          (group_size g)) gs rows.
Proof.
  destruct (finite_cells_dropna x x_cells_finite) as [Hdrop _].
  unfold event_rate_df.
  destruct (safe_binning lib x n_bins_x) as [[xb e]|err] eqn:Hsb;
    [|rewrite safe_binning_chain in Hsb; discriminate].
  assert (Hidx0 : index xb = index x).
  { rewrite (safe_binning_index lib x n_bins_x xb e Hsb). now rewrite Hdrop. }
  assert (Hidx : index xb = index y).
  { rewrite Hidx0. apply paired_exclusion_index. }
  rewrite (binned_frame_groupby xb y y_feature Hidx (paired_exclusion_NoDup _ _)).
  set (keys := values (if String.eqb y_feature "x_bin" then y else astype_str xb)).
  assert (Hlenxy : length xb = length y).
  { rewrite <- (length_map fst xb), <- (length_map fst y). fold (index xb) (index y).
    now rewrite Hidx. }
  set (rows := combine keys (values y)).
  assert (Hgroups : Forall (fun g => snd g <> []
                                     /\ Forall (fun v => present_number v
                                                         /\ In v (values y)) (snd g))
                           (groups_of rows)).
  { apply groups_of_Forall.
    apply (Forall_combine_r (fun v => present_number v /\ In v (values y))).
    apply Forall_forall. intros v Hv. split; trivial.
    now apply (proj1 (Forall_forall _ _) y_cells_present). }
  destruct (result_map_Forall2 agg_mean_count
              (fun g r => exists xs, map Num xs = snd g
                                     /\ r = mkRow (fst g)
                                                  (fdiv_nat (fold_left fadd xs (Fin 0))
                                                            (length xs))
                                                  (group_size g))
              (groups_of rows)) as [out [Hout HF2]].
  { eapply Forall_impl; [|exact Hgroups]. intros g [_ Hg].
    destruct (agg_present g) as [xs [H1 H2]].
    - eapply Forall_impl; [|exact Hg]. now intros v [Hv _].
    - eexists. split; [exact H2|]. now exists xs. }
  exists xb, e, (groups_of rows), out.
  split; [reflexivity|]. split; [exact Hidx0|]. split; [exact Hout|].
  split; [|split].
  - unfold rows, keys. destruct (String.eqb y_feature "x_bin").
    + rewrite groups_of_total.
      * rewrite length_combine, Nat.min_id. unfold values. rewrite length_map.
        rewrite <- (length_map fst y), <- (length_map fst x).
        fold (index x) (index y).
        f_equal. symmetry. apply paired_exclusion_index.
      * apply (Forall_combine_l (fun k => isna k = false)).
        eapply Forall_impl; [|apply y_cells_present].
        intros v [u [-> Hu]]. destruct u; trivial. contradiction.
    + rewrite groups_of_total_present. apply printed_keys_present.
      unfold values. now rewrite length_map.
  - eapply Forall_impl; [|exact Hgroups]. intros g [Hne Hg]. split; trivial.
    eapply Forall_impl; [|exact Hg]. now intros v [_ Hv].
  - exact HF2.
Qed.

End NumericColumns.

(** ** Paired exclusion and the counts of the table *)

(** C4 (as amended).  For a numeric feature column and a numeric target
    column, the event-rate computation keeps a row exactly when its feature
    cell is a finite number and its target cell is not missing (an infinite
    target does not exclude the row); the two retained columns carry the
    same index labels and their cells are the original cells at those
    labels; the table is always produced, and its counts add up to the
    number of retained rows that [safe_binning] gave a bin: a retained row
    whose value falls in no bin has the label NaN and is counted nowhere,
    so the sum never exceeds the number of retained rows but can stay below
    it.  (Should the target column go by the name "x_bin", it replaces the
    labels and every retained row is counted.) *)
Theorem event_rate_paired_exclusion_counts :
  forall lib (feature target : list fval) (y_feature : string) (n_bins_x : nat),
    let x0 := range_series (map Num feature) in
    let y0 := range_series (map Num target) in
    let x := fst (paired_exclusion x0 y0) in
    let y := snd (paired_exclusion x0 y0) in
    index x = index y
    /\ (forall i, In i (index x) <->
                  exists q u, nth_error feature i = Some (Fin q)
                              /\ nth_error target i = Some u /\ u <> NaN)
    /\ (forall i v, In (i, v) x -> nth_error (map Num feature) i = Some v)
    /\ (forall i t, In (i, t) y -> nth_error (map Num target) i = Some t)
    /\ exists x_binned edges rows,
         safe_binning lib x n_bins_x = Ok (x_binned, edges)
         /\ index x_binned = index x
         /\ event_rate_df lib x y y_feature n_bins_x = Ok rows
         /\ list_sum (map Count rows) =
            (if String.eqb y_feature "x_bin" then length x
             else length (dropna x_binned))
         /\ list_sum (map Count rows) <= length x.
Proof.
  intros lib feature target y_feature n_bins_x x0 y0 x y.
  split; [|split; [|split; [|split]]].
  - apply paired_exclusion_index.
  - intros i. etransitivity; [apply retained_index_iff|apply retained_spec].
  - intros i v Hin. destruct (retained_x_In feature target i v Hin) as [q [-> [Hq _]]].
    rewrite nth_error_map, Hq. reflexivity.
  - intros i t Hin. destruct (retained_y_In feature target i t Hin) as [u [-> [_ [Hu _]]]].
    rewrite nth_error_map, Hu. reflexivity.
  - destruct (event_rate_df_groups feature target lib y_feature n_bins_x)
      as [xb [edges [gs [rows [Hsb [Hidx [Hrows [Htotal [_ HF2]]]]]]]]].
    fold x0 y0 in Hsb, Hidx, Hrows, Htotal. fold x in Hsb, Hidx, Hrows, Htotal.
    fold y in Hrows.
    assert (Hsum : list_sum (map Count rows) = total_size gs).
    { apply Forall2_counts. eapply Forall2_impl; [|exact HF2].
      intros g r [xs [_ ->]]. reflexivity. }
    exists xb, edges, rows.
    split; [exact Hsb|]. split; [exact Hidx|]. split; [exact Hrows|].
    rewrite Hsum, Htotal. split; [reflexivity|].
    destruct (String.eqb y_feature "x_bin"); [lia|].
    apply Nat.le_trans with (length xb).
    + unfold dropna. clear. induction xb as [|a l IH]; simpl; [lia|].
      destruct (negb (isna (snd a))); simpl; lia.
    + rewrite <- (length_map fst xb), <- (length_map fst x).
      fold (index xb) (index x). now rewrite Hidx.
Qed.

(** C4, counterexample.  Feature 1, target +inf: the target is not finite,
    yet the row is retained and counted in the table (the exclusion worded
    by the specification would drop it). *)
Lemma infinite_target_row_is_retained :
  spec_paired_exclusion (range_series [Num (Fin 1)]) (range_series [Num PInf]) = ([], [])
  /\ paired_exclusion (range_series [Num (Fin 1)]) (range_series [Num PInf]) =
     ([(0, Num (Fin 1))], [(0, Num PInf)])
  /\ event_rate_df reference_library [(0, Num (Fin 1))] [(0, Num PInf)] "default_ind" 5 =
     Ok [mkRow (Str "(0.9998, 1.0002]") PInf 1].
Proof. repeat split; vm_compute; reflexivity. Qed.

(** Rounding can leave a retained row without a bin.  Feature 10^15 and
    10^15 + 1, two bins: 0.1 percent of the range is 0.001, and 10^15 -
    0.001 rounds back to 10^15, so the first edge is the minimum itself and
    the minimum lies in no interval (l, r].  Both rows are retained, one is
    counted. *)
Lemma rounding_leaves_a_retained_row_uncounted :
  let x0 := range_series (map Num (fins [10 ^ 15; 10 ^ 15 + 1]%Z)) in
  let y0 := range_series (map Num (fins [0; 1]%Z)) in
  paired_exclusion x0 y0 = (x0, y0)
  /\ safe_binning reference_library x0 2 =
     Ok ([(0, Num NaN);
          (1, Interval (Fin (2000000000000001 # 2)) (Fin 1000000000000001))],
         [Num (Fin 1000000000000000); Num (Fin (2000000000000001 # 2));
          Num (Fin 1000000000000001)])
  /\ event_rate_df reference_library x0 y0 "default_ind" 2 =
     Ok [mkRow (Str "(1000000000000000.5, 1000000000000001.0]") (Fin 1) 1].
Proof. repeat split; vm_compute; reflexivity. Qed.

(** ** The worked scenario *)

Lemma scenario_binning open :
  safe_binning (mkLibrary exact_quantiles open)
               (range_series (map Num scenario_feature)) 2 =
  Ok (combine (seq 0 10)
              (repeat (Interval (f64 (999 # 1000)) (Fin (11 # 2))) 5
                 ++ repeat (Interval (Fin (11 # 2)) (Fin 10)) 5),
      [Num (Fin 1); Num (Fin (11 # 2)); Num (Fin 10)]).
Proof. vm_compute. reflexivity. Qed.

(** C6.  Feature 1..10, target five 0 then five 1, two bins: no row is
    excluded and the event-rate table has exactly two bins, of 5 rows each,
    with rates 0 and 1: the buckets printed "(0.999, 5.5]" (the edges are
    1, 5.5 and 10, and the first bucket holds the lowest value 1) and
    "(5.5, 10.0]", or, should the target column go by the name "x_bin",
    the two target values themselves.  The quantiles 1, 5.5 and 10 of the
    sample are exact in binary64; what [pd.qcut] does on other samples
    ([open]) plays no part.  With nothing raising in the environment,
    [plot_event_rate_bar] draws that table and its bar chart. *)
Theorem event_rate_scenario :
  forall (open : list value -> nat -> result ((value -> value) * list value))
         (y_feature : string),
    let lib := mkLibrary exact_quantiles open in
    let x0 := range_series (map Num scenario_feature) in
    let y0 := range_series (map Num scenario_target) in
    paired_exclusion x0 y0 = (x0, y0)
    /\ event_rate_df lib x0 y0 y_feature 2 =
       Ok (if String.eqb y_feature "x_bin"
           then [mkRow (Num (Fin 0)) (Fin 0) 5; mkRow (Num (Fin 1)) (Fin 1) 5]
           else scenario_table)
    /\ plot_event_rate_bar (quiet_env scenario_df) scenario_df "feature" "default_ind" 2 =
       (Ret tt,
        [Write "📋 Binned Event Rate Table";
         ShowDataframe (RateTable scenario_table);
         PlotlyChart (RateBarFig scenario_table "Bin" "Event rate" "Count"
                                 "📊 Event Rate by Bins for feature")]).
Proof.
  intros open y_feature lib x0 y0. split; [|split].
  - vm_compute. reflexivity.
  - unfold event_rate_df. unfold x0 at 1, lib. rewrite scenario_binning.
    rewrite binned_frame_groupby;
      [|reflexivity|apply NoDup_index_range_series].
    destruct (String.eqb y_feature "x_bin"); vm_compute; reflexivity.
  - vm_compute. reflexivity.
Qed.

(** ** Rates of a binary target *)

Lemma sum_binary (xs : list fval) (a : Q) :
  Forall is_binary xs ->
  exists s, fold_left fadd xs (Fin a) = Fin s
            /\ (a <= s)%Q /\ (s <= a + inject_Z (Z.of_nat (length xs)))%Q.
Proof.
  intros H. revert a. induction H as [|t xs [q [-> Hq]] Hxs IH]; intros a.
  - exists a. cbn [fold_left length]. change (inject_Z (Z.of_nat 0)) with 0%Q.
    split; [reflexivity|split; lra].
  - cbn [fold_left fadd].
    destruct (IH (Qred (a + q))) as [s [Hs [Hlo Hhi]]].
    exists s. split; [exact Hs|].
    rewrite Qred_correct in Hlo, Hhi.
    cbn [length]. rewrite Nat2Z.inj_succ, <- Z.add_1_r, inject_Z_plus.
    change (inject_Z 1) with 1%Q.
    destruct Hq as [Hq|Hq]; rewrite Hq in Hlo, Hhi; split; lra.
Qed.

(** The mean of a non-empty group of 0/1 cells lies between 0 and 1. *)
Lemma mean_binary (xs : list fval) :
  Forall is_binary xs -> xs <> [] ->
  exists q, fdiv_nat (fold_left fadd xs (Fin 0)) (length xs) = Fin q
            /\ (0 <= q)%Q /\ (q <= 1)%Q.
Proof.
  intros H Hne. destruct (sum_binary xs 0 H) as [s [Hs [Hlo Hhi]]].
  rewrite Hs. unfold fdiv_nat.
  destruct xs as [|t xs]; [contradiction|].
  cbn [length Nat.eqb]. cbn [length] in Hhi.
  set (n := inject_Z (Z.of_nat (S (length xs)))) in *.
  assert (Hn : (0 < n)%Q).
  { unfold n. change 0%Q with (inject_Z 0). rewrite <- Zlt_Qlt. lia. }
  exists (Qred (s / n)). split; [reflexivity|].
  rewrite Qred_correct. split.
  - apply Qle_shift_div_l; trivial; lra.
  - apply Qle_shift_div_r; trivial; lra.
Qed.

(** C7.  For a numeric feature column and a target column whose cells are
    all 0 or 1, the event-rate table is produced and every rate in it lies
    in [0, 1]. *)
Theorem event_rate_in_unit_interval :
  forall (lib : library)
         (feature target : list fval) (y_feature : string) (n_bins_x : nat),
    Forall is_binary target ->
    let x0 := range_series (map Num feature) in
    let y0 := range_series (map Num target) in
    let x := fst (paired_exclusion x0 y0) in
    let y := snd (paired_exclusion x0 y0) in
    exists rows,
      event_rate_df lib x y y_feature n_bins_x = Ok rows
      /\ Forall (fun r => exists q, Event_rate r = Fin q /\ (0 <= q)%Q /\ (q <= 1)%Q) rows.
Proof.
  intros lib feature target y_feature n_bins_x Hbin x0 y0 x y.
  destruct (event_rate_df_groups feature target lib y_feature n_bins_x)
    as [xb [edges [gs [rows [_ [_ [Hrows [_ [Hgs HF2]]]]]]]]].
  exists rows. split; [exact Hrows|].
  clear Hrows. induction HF2 as [|g r gs rows [xs [Hxs ->]] _ IH]; constructor.
  - inversion Hgs as [|? ? [Hne Hin] _]. subst. simpl.
    apply mean_binary.
    + apply Forall_forall. intros u Hu.
      assert (Hv : In (Num u) (values y)).
      { apply (proj1 (Forall_forall _ _) Hin). rewrite <- Hxs. now apply in_map. }
      unfold values in Hv. apply in_map_iff in Hv.
      destruct Hv as [[i t] [Heq Hit]]. simpl in Heq. subst t.
      destruct (retained_y_In feature target i (Num u) Hit) as [u' [Hu' [_ [Hnth _]]]].
      inversion Hu'. subst u'.
      apply (proj1 (Forall_forall _ _) Hbin). eapply nth_error_In, Hnth.
    + intros ->. apply Hne. now rewrite <- Hxs.
  - apply IH. now inversion Hgs.
Qed.

Lemma event_rate_in_unit_interval_witness :
  exists rows,
    event_rate_df reference_library
      (fst (paired_exclusion (range_series (map Num scenario_feature))
                             (range_series (map Num scenario_target))))
      (snd (paired_exclusion (range_series (map Num scenario_feature))
                             (range_series (map Num scenario_target))))
      "default_ind" 2 = Ok rows
    /\ Forall (fun r => exists q, Event_rate r = Fin q /\ (0 <= q)%Q /\ (q <= 1)%Q) rows.
Proof.
  apply (event_rate_in_unit_interval reference_library scenario_feature scenario_target
           "default_ind" 2).
  repeat constructor; eexists; (split; [reflexivity|]);
    (left; reflexivity) || (right; reflexivity).
Defined.

(** ** Sorting and quantiles *)


Lemma Qle_bool_false (a b : Q) : Qle_bool a b = false -> (b < a)%Q.
Proof.
  intros H. apply Qnot_le_lt. intros Hle. apply Qle_bool_iff in Hle. congruence.
Qed.

Lemma insert_sorted_In (x y : Q) (l : list Q) :
  In y (insert_sorted x l) <-> y = x \/ In y l.
Proof.
  induction l as [|z l IH]; simpl.
  - intuition.
  - destruct (Qle_bool x z); simpl; rewrite ?IH; intuition.
Qed.

Lemma sort_In (y : Q) (l : list Q) : In y (sort l) <-> In y l.
Proof.
  induction l as [|x l IH]; simpl; [tauto|].
  rewrite insert_sorted_In, IH. intuition.
Qed.

Lemma insert_sorted_length (x : Q) (l : list Q) :
  length (insert_sorted x l) = S (length l).
Proof.
  induction l as [|z l IH]; simpl; trivial.
  destruct (Qle_bool x z); simpl; now rewrite ?IH.
Qed.

Lemma sort_length (l : list Q) : length (sort l) = length l.
Proof.
  induction l as [|x l IH]; simpl; trivial.
  now rewrite insert_sorted_length, IH.
Qed.

Lemma insert_sorted_sorted (x : Q) (l : list Q) :
  StronglySorted Qle l -> StronglySorted Qle (insert_sorted x l).
Proof.
  induction 1 as [|z l Hl IH Hz]; simpl.
  - constructor; constructor.
  - destruct (Qle_bool x z) eqn:Hxz.
    + apply Qle_bool_iff in Hxz. constructor.
      * now constructor.
      * constructor; trivial.
        eapply Forall_impl; [|exact Hz]. intros w Hw. now apply Qle_trans with z.
    + apply Qle_bool_false in Hxz. constructor; trivial.
      apply Forall_forall. intros w Hw. apply insert_sorted_In in Hw.
      destruct Hw as [->|Hw].
      * now apply Qlt_le_weak.
      * now apply (proj1 (Forall_forall _ _) Hz).
Qed.

Lemma sort_sorted (l : list Q) : StronglySorted Qle (sort l).
Proof.
  induction l as [|x l IH]; simpl; [constructor|].
  now apply insert_sorted_sorted.
Qed.

Lemma sorted_nth (s : list Q) (i j : nat) :
  StronglySorted Qle s -> i <= j -> j < length s ->
  (nth i s 0 <= nth j s 0)%Q.
Proof.
  intros H. revert i j. induction H as [|z l Hl IH Hz]; intros i j Hij Hj; simpl in *.
  - lia.
  - destruct i as [|i], j as [|j]; try lia.
    + apply Qle_refl.
    + apply (proj1 (Forall_forall _ _) Hz). apply nth_In. lia.
    + apply IH; lia.
Qed.

Lemma sorted_bounds (s : list Q) (a : Q) :
  StronglySorted Qle s -> In a s ->
  (nth 0 s 0 <= a)%Q /\ (a <= nth (length s - 1) s 0)%Q.
Proof.
  intros Hs Ha. destruct (In_nth s a 0%Q Ha) as [k [Hk <-]].
  split; apply sorted_nth; trivial; lia.
Qed.

Lemma quantile_interpolate (s : list Q) (q i : nat) :
  (quantile s q i == interpolate s q (i * (length s - 1)))%Q.
Proof. unfold quantile, interpolate. apply Qred_correct. Qed.

Lemma fraction_bounds (r q : nat) :
  r < q ->
  (0 <= inject_Z (Z.of_nat r) / inject_Z (Z.of_nat q))%Q
  /\ (inject_Z (Z.of_nat r) / inject_Z (Z.of_nat q) <= 1)%Q.
Proof.
  intros H.
  assert (Hq : (0 < inject_Z (Z.of_nat q))%Q).
  { change 0%Q with (inject_Z 0). rewrite <- Zlt_Qlt. lia. }
  assert (Hr : (0 <= inject_Z (Z.of_nat r))%Q).
  { change 0%Q with (inject_Z 0). rewrite <- Zle_Qle. lia. }
  assert (Hrq : (inject_Z (Z.of_nat r) <= inject_Z (Z.of_nat q))%Q).
  { rewrite <- Zle_Qle. lia. }
  split.
  - apply Qle_shift_div_l; trivial; lra.
  - apply Qle_shift_div_r; trivial; lra.
Qed.

Lemma fraction_mono (r r' q : nat) :
  0 < q -> r <= r' ->
  (inject_Z (Z.of_nat r) / inject_Z (Z.of_nat q)
   <= inject_Z (Z.of_nat r') / inject_Z (Z.of_nat q))%Q.
Proof.
  intros Hq H.
  assert (Hq' : (0 < inject_Z (Z.of_nat q))%Q).
  { change 0%Q with (inject_Z 0). rewrite <- Zlt_Qlt. lia. }
  assert (Hr : (inject_Z (Z.of_nat r) <= inject_Z (Z.of_nat r'))%Q).
  { rewrite <- Zle_Qle. lia. }
  unfold Qdiv. apply Qmult_le_compat_r; trivial.
  apply Qlt_le_weak, Qinv_lt_0_compat, Hq'.
Qed.

Section Interpolation.

Variable s : list Q.
Variable q : nat.
Hypothesis s_sorted : StronglySorted Qle s.
Hypothesis s_nonempty : 0 < length s.
Hypothesis q_positive : 0 < q.

Lemma interpolate_bounds (num : nat) :
  num <= q * (length s - 1) ->
  (nth (num / q) s 0 <= interpolate s q num)%Q
  /\ (interpolate s q num <= nth (Nat.min (num / q + 1) (length s - 1)) s 0)%Q.
Proof.
  intros Hnum. unfold interpolate.
  assert (Hlo : num / q <= length s - 1).
  { apply Nat.Div0.div_le_upper_bound. lia. }
  set (a := nth (num / q) s 0%Q).
  set (b := nth (Nat.min (num / q + 1) (length s - 1)) s 0%Q).
  assert (Hab : (a <= b)%Q) by (apply sorted_nth; trivial; lia).
  destruct (fraction_bounds (num mod q) q) as [H0 H1].
  { apply Nat.mod_upper_bound. lia. }
  set (t := (inject_Z (Z.of_nat (num mod q)) / inject_Z (Z.of_nat q))%Q) in *.
  split; nra.
Qed.

Lemma interpolate_mono (num num' : nat) :
  num <= num' -> num' <= q * (length s - 1) ->
  (interpolate s q num <= interpolate s q num')%Q.
Proof.
  intros Hle Hnum'.
  assert (Hdiv : num / q <= num' / q) by (apply Nat.Div0.div_le_mono; lia).
  assert (Hhi : num' / q <= length s - 1).
  { apply Nat.Div0.div_le_upper_bound. lia. }
  destruct (Nat.eq_dec (num / q) (num' / q)) as [Heq|Hne].
  - unfold interpolate. rewrite <- Heq.
    set (a := nth (num / q) s 0%Q).
    set (b := nth (Nat.min (num / q + 1) (length s - 1)) s 0%Q).
    assert (Hab : (a <= b)%Q) by (apply sorted_nth; trivial; lia).
    assert (Hr : num mod q <= num' mod q).
    { pose proof (Nat.div_mod_eq num q). pose proof (Nat.div_mod_eq num' q).
      rewrite <- Heq in H0. nia. }
    pose proof (fraction_mono (num mod q) (num' mod q) q q_positive Hr) as Ht.
    set (t := (inject_Z (Z.of_nat (num mod q)) / inject_Z (Z.of_nat q))%Q) in *.
    set (t' := (inject_Z (Z.of_nat (num' mod q)) / inject_Z (Z.of_nat q))%Q) in *.
    nra.
  - destruct (interpolate_bounds num) as [_ H1]; [lia|].
    destruct (interpolate_bounds num') as [H2 _]; [lia|].
    apply Qle_trans with (nth (Nat.min (num / q + 1) (length s - 1)) s 0%Q); trivial.
    apply Qle_trans with (nth (num' / q) s 0%Q); trivial.
    apply sorted_nth; trivial; lia.
Qed.

Lemma quantile_mono (i j : nat) :
  i <= j -> j <= q -> (quantile s q i <= quantile s q j)%Q.
Proof.
  intros Hij Hj. rewrite !quantile_interpolate.
  apply interpolate_mono; nia.
Qed.

Lemma quantile_first : (quantile s q 0 == nth 0 s 0)%Q.
Proof.
  rewrite quantile_interpolate. unfold interpolate.
  rewrite Nat.mul_0_l, Nat.Div0.div_0_l, Nat.Div0.mod_0_l.
  change (inject_Z (Z.of_nat 0)) with 0%Q. unfold Qdiv. ring.
Qed.

Lemma quantile_last : (quantile s q q == nth (length s - 1) s 0)%Q.
Proof.
  rewrite quantile_interpolate. unfold interpolate.
  rewrite (Nat.mul_comm q), Nat.div_mul by lia. rewrite Nat.Div0.mod_mul.
  change (inject_Z (Z.of_nat 0)) with 0%Q. unfold Qdiv. ring.
Qed.

End Interpolation.

(** ** Edges *)

Lemma map_seq_sorted (f : nat -> Q) (a len : nat) :
  (forall i j, a <= i -> i <= j -> j < a + len -> (f i <= f j)%Q) ->
  StronglySorted Qle (map f (seq a len)).
Proof.
  revert a. induction len as [|len IH]; intros a Hf; simpl; constructor.
  - apply IH. intros i j Hi Hij Hj. apply Hf; lia.
  - apply Forall_forall. intros y Hy. apply in_map_iff in Hy.
    destruct Hy as [j [<- Hj]]. apply in_seq in Hj. apply Hf; lia.
Qed.

Lemma quantiles_length (s : list Q) (q : nat) : length (quantiles s q) = S q.
Proof. unfold quantiles. now rewrite length_map, length_seq. Qed.

Lemma quantiles_nth (s : list Q) (q i : nat) :
  i <= q -> nth i (quantiles s q) 0%Q = quantile s q i.
Proof.
  intros Hi. unfold quantiles.
  rewrite (nth_indep _ 0%Q (quantile s q 0)) by (rewrite length_map, length_seq; lia).
  rewrite map_nth, seq_nth by lia. reflexivity.
Qed.

Lemma quantiles_sorted (s : list Q) (q : nat) :
  StronglySorted Qle s -> 0 < length s -> 0 < q ->
  StronglySorted Qle (quantiles s q).
Proof.
  intros Hs Hn Hq. unfold quantiles. apply map_seq_sorted.
  intros i j _ Hij Hj. apply quantile_mono; trivial. lia.
Qed.














Lemma fold_min_le (l : list Q) (d x : Q) : In x l -> (fold_right Qmin d l <= x)%Q.
Proof.
  induction l as [|y l IH]; simpl; [contradiction|].
  intros [->|H].
  - apply Q.le_min_l.
  - apply Qle_trans with (fold_right Qmin d l); [apply Q.le_min_r|now apply IH].
Qed.

Lemma fold_max_ge (l : list Q) (d x : Q) : In x l -> (x <= fold_right Qmax d l)%Q.
Proof.
  induction l as [|y l IH]; simpl; [contradiction|].
  intros [->|H].
  - apply Q.le_max_l.
  - apply Qle_trans with (fold_right Qmax d l); [now apply IH|apply Q.le_max_r].
Qed.

Lemma list_min_max (l : list Q) (x : Q) :
  In x l -> (list_min l <= x)%Q /\ (x <= list_max l)%Q.
Proof.
  intros H. split; [now apply fold_min_le|now apply fold_max_ge].
Qed.

Lemma fold_min_In (l : list Q) (d : Q) :
  (fold_right Qmin d l == d)%Q \/ exists x, In x l /\ (fold_right Qmin d l == x)%Q.
Proof.
  induction l as [|y l IH]; simpl; [now left|].
  destruct (Q.min_dec y (fold_right Qmin d l)) as [H|H].
  - right. exists y. split; [now left|exact H].
  - destruct IH as [IH|[x [Hx IH]]].
    + left. now rewrite H.
    + right. exists x. split; [now right|]. now rewrite H.
Qed.

Lemma fold_max_In (l : list Q) (d : Q) :
  (fold_right Qmax d l == d)%Q \/ exists x, In x l /\ (fold_right Qmax d l == x)%Q.
Proof.
  induction l as [|y l IH]; simpl; [now left|].
  destruct (Q.max_dec y (fold_right Qmax d l)) as [H|H].
  - right. exists y. split; [now left|exact H].
  - destruct IH as [IH|[x [Hx IH]]].
    + left. now rewrite H.
    + right. exists x. split; [now right|]. now rewrite H.
Qed.

(** The extremes of a sample are its first and last order statistics. *)
Lemma sort_extremes (l : list Q) :
  l <> [] ->
  (nth 0 (sort l) 0 == list_min l)%Q
  /\ (nth (length (sort l) - 1) (sort l) 0 == list_max l)%Q.
Proof.
  intros Hne.
  assert (Hlen : 0 < length (sort l)).
  { rewrite sort_length. destruct l; [contradiction|simpl; lia]. }
  assert (Hhd : In (hd 0%Q l) l) by (destruct l; [contradiction|now left]).
  assert (Hmin : exists x, In x l /\ (list_min l == x)%Q).
  { unfold list_min. destruct (fold_min_In l (hd 0%Q l)) as [H|H]; trivial.
    now exists (hd 0%Q l). }
  assert (Hmax : exists x, In x l /\ (list_max l == x)%Q).
  { unfold list_max. destruct (fold_max_In l (hd 0%Q l)) as [H|H]; trivial.
    now exists (hd 0%Q l). }
  destruct Hmin as [a [Ha Hmin]]. destruct Hmax as [b [Hb Hmax]].
  split; apply Qle_antisym.
  - rewrite Hmin. apply (sorted_bounds (sort l)); [apply sort_sorted|now apply sort_In].
  - apply list_min_max. apply sort_In, nth_In. lia.
  - apply list_min_max. apply sort_In, nth_In. lia.
  - rewrite Hmax. apply (sorted_bounds (sort l)); [apply sort_sorted|now apply sort_In].
Qed.

(** The exact interpolation gives regular quantiles on every sample. *)
Lemma exact_quantiles_regular (open : list value -> nat -> result ((value -> value) * list value))
    (qs : list Q) (q : nat) :
  qs <> [] -> 0 < q ->
  regular_quantiles (mkLibrary exact_quantiles open) qs q (quantiles (sort qs) q).
Proof.
  intros Hne Hq.
  assert (Hn : 0 < length (sort qs)).
  { rewrite sort_length. destruct qs; [contradiction|simpl; lia]. }
  destruct (sort_extremes qs Hne) as [Hmin Hmax].
  unfold regular_quantiles. cbn [series_quantile]. unfold exact_quantiles.
  split; [reflexivity|]. split; [rewrite quantiles_length; lia|].
  split; [apply quantiles_sorted; trivial; apply sort_sorted|].
  split.
  - rewrite quantiles_nth by lia. rewrite <- Hmin.
    apply quantile_first; trivial.
  - rewrite quantiles_nth by lia. rewrite <- Hmax.
    apply quantile_last; trivial.
Qed.

(** ** Buckets *)








(** ** Quantile binning of a sample with more distinct values than bins *)











(** * Further properties of the application *)

(** ** Start-up *)

(** X1.  When the data file cannot be read, [main] shows the preamble, one
    [st.error] message and one [st.info] hint and returns: the message names
    the file for [FileNotFoundError] and quotes the exception for any other
    one.  Nothing else is drawn. *)
Theorem main_reports_unreadable_file :
  forall (E : env) (e : exn),
    read_csv E "data.csv" = Raise e ->
    main E =
    (Ret tt,
     snd preamble ++
       match exn_cls e with
       | FileNotFoundError =>
           [Error "Error: The file 'data.csv' was not found.";
            Info "Please make sure your data file is in the same folder as this script and that the filename above matches."]
       | _ =>
           [Error ("An error occurred while reading the file: " ++ exn_msg e)%string;
            Info "If it's an Excel file, ensure 'openpyxl' is installed: `pip install openpyxl`."]
       end).
Proof.
  intros E e Hread. unfold main. rewrite Hread.
  destruct e as [cls msg]. destruct cls; reflexivity.
Qed.

Lemma main_reports_unreadable_file_witness :
  main (unreadable_env (mkExn FileNotFoundError "No such file or directory: 'data.csv'")) =
  (Ret tt,
   [SetPageConfig "wide" "Bivariate Analysis Dashboard";
    Title "Bivariate Analysis Dashboard";
    Markdown intro_text;
    Error "Error: The file 'data.csv' was not found.";
    Info "Please make sure your data file is in the same folder as this script and that the filename above matches."]).
Proof.
  apply (main_reports_unreadable_file
           (unreadable_env (mkExn FileNotFoundError "No such file or directory: 'data.csv'"))
           (mkExn FileNotFoundError "No such file or directory: 'data.csv'")).
  reflexivity.
Defined.

Ltac never_stops_cases :=
  repeat (never_stops_tac;
          try match goal with
              | |- never_stops (if ?c then _ else _) => destruct c
              | |- never_stops (match ?c with _ => _ end) => destruct c
              end).

Lemma home_page_never_stops E : never_stops (home_page E).
Proof. unfold home_page. never_stops_tac. Qed.

Lemma data_overview_page_never_stops E url : never_stops (data_overview_page E url).
Proof.
  unfold data_overview_page. never_stops_cases.
Qed.

Lemma univariate_analysis_page_never_stops E df :
  never_stops (univariate_analysis_page E df).
Proof.
  unfold univariate_analysis_page, st_selectbox. never_stops_cases.
Qed.

Lemma correlation_page_never_stops E df : never_stops (correlation_page E df).
Proof.
  unfold correlation_page. never_stops_cases.
Qed.

Lemma try_ui_never_stops {A} (m : UI A) (h : exn -> UI A) :
  never_stops m -> (forall e, never_stops (h e)) -> never_stops (try_ui m h).
Proof.
  unfold never_stops, try_ui. intros Hm Hh.
  destruct m as [[a|e|] l]; simpl in *; trivial.
  specialize (Hh e). now destruct (h e).
Qed.

Lemma plot_boxplot_never_stops E df x_feature y_feature :
  never_stops (plot_boxplot E df x_feature y_feature).
Proof.
  apply try_ui_never_stops; [apply plot_boxplot_body_never_stops|].
  intros e. apply never_stops_emit.
Qed.

Lemma plot_event_rate_bar_never_stops E df x_feature y_feature n_bins_x :
  never_stops (plot_event_rate_bar E df x_feature y_feature n_bins_x).
Proof.
  apply try_ui_never_stops; [apply plot_event_rate_bar_body_never_stops|].
  intros e. apply never_stops_emit.
Qed.

Lemma bivariates_page_never_stops E df target_feature :
  never_stops (bivariates_page E df target_feature).
Proof.
  unfold bivariates_page, st_sidebar_selectbox, st_radio, st_slider.
  never_stops_cases;
    first [apply plot_boxplot_never_stops | apply plot_event_rate_bar_never_stops].
Qed.

Lemma defaulter_profiling_page_never_stops E df target_feature :
  never_stops (defaulter_profiling_page E df target_feature).
Proof.
  unfold defaulter_profiling_page, st_sidebar_selectbox. never_stops_cases.
Qed.

Lemma dispatch_never_stops E df : never_stops (dispatch E df).
Proof.
  unfold dispatch, st_sidebar_radio. never_stops_tac.
  repeat match goal with
         | |- never_stops (if ?c then _ else _) => destruct c
         end;
    auto using home_page_never_stops, data_overview_page_never_stops,
      univariate_analysis_page_never_stops, bivariates_page_never_stops,
      correlation_page_never_stops, defaulter_profiling_page_never_stops,
      never_stops_ret.
Qed.

(** X2.  A run of [main] ends by [st.stop()] exactly when the file was read,
    has at least one column and none is named [default_ind]: no page handler
    and no other path of [main] stops the script. *)
Theorem main_stops_exactly_without_target :
  forall (E : env),
    fst (main E) = Stopped <->
    exists df, read_csv E "data.csv" = Ok df
               /\ columns df <> []
               /\ mem TARGET_FEATURE (columns df) = false.
Proof.
  intros E. unfold main. split.
  - destruct (read_csv E "data.csv") as [df|e] eqn:Hread.
    + destruct (columns df) as [|c cs] eqn:Hcols; [discriminate|].
      destruct (mem TARGET_FEATURE (c :: cs)) eqn:Hmem.
      * intros H. exfalso. revert H.
        change (never_stops (preamble ;; emit (SidebarHeader "Navigation") ;;
                             ret tt ;; dispatch E df)).
        apply never_stops_bind; [unfold preamble; never_stops_tac|intro].
        apply never_stops_bind; [auto with ui|intro].
        apply never_stops_bind; [auto with ui|intro].
        apply dispatch_never_stops.
      * intros _. exists df. rewrite Hcols. repeat split; trivial. discriminate.
    + destruct e as [cls msg]. destruct cls; discriminate.
  - intros [df [Hread [Hcols Hmem]]]. rewrite Hread.
    destruct (columns df) as [|c cs]; [contradiction|].
    rewrite Hmem. reflexivity.
Qed.

Lemma snd_bind_emit {B} (ev : event) (k : UI B) :
  snd (emit ev ;; k) = ev :: snd k.
Proof. unfold bind, emit. now destruct k. Qed.

Lemma snd_bind {A B} (m : UI A) (f : A -> UI B) (a : A) (l : list event) :
  m = (Ret a, l) -> snd (bind m f) = l ++ snd (f a).
Proof. intros ->. unfold bind. now destruct (f a). Qed.

Lemma page_header_first E df (n : nat) :
  n < 6 ->
  exists rest,
    snd (let page_selection := py_str (nth_error PAGES n) in
         if String.eqb page_selection HOME then home_page E
         else if String.eqb page_selection DATA_OVERVIEW then
                data_overview_page E POWER_BI_EMBED_URL
         else if String.eqb page_selection UNIVARIATE then univariate_analysis_page E df
         else if String.eqb page_selection BIVARIATES then
                bivariates_page E df TARGET_FEATURE
         else if String.eqb page_selection CORRELATION then correlation_page E df
         else if String.eqb page_selection PROFILING then
                defaulter_profiling_page E df TARGET_FEATURE
         else ret tt)
    = Header (nth n PAGE_HEADERS "") :: rest.
Proof.
  intros Hn.
  destruct n as [|[|[|[|[|[|n]]]]]]; try lia; cbv zeta;
    match goal with
    | |- context [py_str ?o] =>
        let v := eval vm_compute in (py_str o) in change (py_str o) with v
    end;
    repeat match goal with
           | |- context [String.eqb ?a ?b] =>
               let v := eval vm_compute in (String.eqb a b) in
               change (String.eqb a b) with v
           end;
    cbv iota;
    [ unfold home_page | unfold data_overview_page | unfold univariate_analysis_page
    | unfold bivariates_page | unfold correlation_page | unfold defaulter_profiling_page ];
    rewrite snd_bind_emit; eexists; reflexivity.
Qed.

(** X3.  When the file was read and holds the target column, [main] draws
    the navigation radio with the six pages and then the page the user
    picked: whatever the choice, the next element is the header of the
    matching page (the dispatch never falls through). *)
Theorem main_renders_selected_page :
  forall (E : env) (df : DataFrame),
    read_csv E "data.csv" = Ok df ->
    mem TARGET_FEATURE (columns df) = true ->
    exists rest,
      snd (main E) =
      snd preamble
        ++ [SidebarHeader "Navigation";
            SidebarRadio "Go to" PAGES;
            Header (nth (radio_choice E "Go to" mod 6) PAGE_HEADERS "")]
        ++ rest.
Proof.
  intros E df Hread Hmem. unfold main. rewrite Hread.
  destruct (columns df) as [|c cs] eqn:Hcols; [discriminate|].
  rewrite Hmem.
  destruct (page_header_first E df (radio_choice E "Go to" mod 6)) as [rest Hrest].
  { apply Nat.mod_upper_bound. discriminate. }
  cbv zeta in Hrest. exists rest.
  rewrite (snd_bind preamble _ tt (snd preamble)) by reflexivity.
  rewrite snd_bind_emit.
  rewrite (snd_bind (ret tt) _ tt []) by reflexivity.
  unfold dispatch, st_sidebar_radio.
  rewrite (snd_bind _ _ (py_str (pick PAGES (radio_choice E "Go to")))
                    [SidebarRadio "Go to" PAGES]) by reflexivity.
  unfold pick. change (length PAGES) with 6. cbv beta.
  apply (f_equal (fun l => snd preamble ++ SidebarHeader "Navigation"
                             :: [] ++ [SidebarRadio "Go to" PAGES] ++ l)) in Hrest.
  exact Hrest.
Qed.

Lemma main_renders_selected_page_witness :
  exists rest,
    snd (main (quiet_env sample_df)) =
    snd preamble
      ++ [SidebarHeader "Navigation";
          SidebarRadio "Go to" PAGES;
          Header (nth (radio_choice (quiet_env sample_df) "Go to" mod 6) PAGE_HEADERS "")]
      ++ rest.
Proof.
  apply (main_renders_selected_page (quiet_env sample_df) sample_df); reflexivity.
Defined.

(** ** Exceptions of the application's own *)

Lemma only_external_emit E (ev : event) : only_external E (emit ev).
Proof. intros e evs H. discriminate. Qed.

Lemma only_external_ret {A} E (a : A) : only_external E (ret a).
Proof. intros e evs H. discriminate. Qed.

Lemma only_external_call {A} E (c : extcall) (a : A) : only_external E (call E c a).
Proof.
  intros e evs. unfold call. destruct (raises E c) as [e'|] eqn:Hc; [|discriminate].
  intros H. inversion H. subst. now exists c.
Qed.

Lemma only_external_draw E (c : extcall) (ev : event) : only_external E (draw E c ev).
Proof.
  intros e evs. unfold draw. destruct (raises E c) as [e'|] eqn:Hc; [|discriminate].
  intros H. inversion H. subst. now exists c.
Qed.

Lemma only_external_bind {A B} E (m : UI A) (f : A -> UI B) :
  only_external E m -> (forall a, only_external E (f a)) -> only_external E (bind m f).
Proof.
  unfold only_external, bind. intros Hm Hf e evs.
  destruct m as [[a|e'|] l].
  - specialize (Hf a). destruct (f a) as [o l']. intros H. inversion H. subst.
    now apply (Hf e l').
  - intros H. inversion H. subst. now apply (Hm e evs).
  - discriminate.
Qed.

Lemma only_external_returns {A} E (m : UI A) (a : A) :
  fst m = Ret a -> only_external E m.
Proof. intros H e evs Hm. rewrite Hm in H. discriminate. Qed.

Lemma only_external_lift_ok {A} E (a : A) : only_external E (lift (Ok a)).
Proof. intros e evs H. discriminate. Qed.

#[local] Hint Resolve only_external_emit only_external_ret only_external_call
  only_external_draw only_external_lift_ok : ui.

Ltac only_external_tac :=
  repeat (repeat first
            [ apply only_external_bind; [ | intro ]
            | solve [ auto with ui ] ];
          try match goal with
              | |- only_external _ (if ?c then _ else _) => destruct c
              end).

Lemma pick_In (options : list string) (choice : nat) (s : string) :
  pick options choice = Some s -> In s options.
Proof. unfold pick. apply nth_error_In. Qed.

Lemma pick_nonempty (options : list string) (choice : nat) :
  options <> [] -> exists s, pick options choice = Some s.
Proof.
  intros Hne. unfold pick.
  destruct (nth_error options (choice mod length options)) as [s|] eqn:Hn.
  - now exists s.
  - apply nth_error_None in Hn.
    assert (choice mod length options < length options).
    { apply Nat.mod_upper_bound. destruct options; [contradiction|discriminate]. }
    lia.
Qed.

Lemma getcol_In (df : DataFrame) (name : string) :
  In name (columns df) ->
  exists col, getcol df name = Ok col /\ In (name, col) df.
Proof.
  unfold getcol, columns. induction df as [|[k c] df IH]; simpl; [contradiction|].
  destruct (String.eqb name k) eqn:Hk.
  - apply String.eqb_eq in Hk. subst. intros _. exists c. split; trivial. now left.
  - intros [H|H]; [subst; now rewrite String.eqb_refl in Hk|].
    destruct (IH H) as [col [H1 H2]]. exists col. split; [exact H1|now right].
Qed.

Lemma mem_In (s : string) (l : list string) : mem s l = true <-> In s l.
Proof.
  unfold mem. rewrite existsb_exists. split.
  - intros [x [Hx Heq]]. apply String.eqb_eq in Heq. now subst.
  - intros H. exists s. split; trivial. apply String.eqb_refl.
Qed.

Lemma only_external_bind_ret {A B} E (m : UI A) (f : A -> UI B) (a : A) (l : list event) :
  m = (Ret a, l) -> only_external E (f a) -> only_external E (bind m f).
Proof.
  intros -> Hf e evs. unfold bind. specialize (Hf e).
  destruct (f a) as [o l']. intros H. inversion H. subst. now apply (Hf l').
Qed.

Lemma univariate_analysis_page_only_external E df :
  columns df <> [] -> only_external E (univariate_analysis_page E df).
Proof.
  intros Hne. unfold univariate_analysis_page, st_selectbox.
  destruct (pick_nonempty (columns df) (selectbox_choice E "Select a feature to analyze") Hne)
    as [name Hname].
  destruct (getcol_In df name (pick_In _ _ _ Hname)) as [col [Hcol _]].
  apply only_external_bind; [auto with ui|intro].
  apply only_external_bind; [auto with ui|intro].
  eapply only_external_bind_ret; [reflexivity|].
  cbv zeta. rewrite Hname. cbn [py_str].
  apply only_external_bind; [auto with ui|intro].
  rewrite Hcol.
  eapply only_external_bind_ret; [reflexivity|].
  only_external_tac.
Qed.

Lemma defaulter_profiling_page_only_external E df target_feature :
  In target_feature (columns df) ->
  only_external E (defaulter_profiling_page E df target_feature).
Proof.
  intros Hin. unfold defaulter_profiling_page, st_sidebar_selectbox.
  destruct (getcol_In df target_feature Hin) as [col [Hcol _]].
  rewrite Hcol.
  apply only_external_bind; [auto with ui|intro].
  apply only_external_bind; [auto with ui|intro].
  destruct (filter _ (numerical_features df)); only_external_tac.
Qed.

Lemma correlation_page_only_external E df : only_external E (correlation_page E df).
Proof. unfold correlation_page. only_external_tac. Qed.

Lemma home_page_only_external E : only_external E (home_page E).
Proof. unfold home_page. only_external_tac. Qed.

Lemma data_overview_page_only_external E url :
  only_external E (data_overview_page E url).
Proof. unfold data_overview_page. only_external_tac. Qed.

Lemma dispatch_only_external E df :
  columns df <> [] -> In TARGET_FEATURE (columns df) ->
  only_external E (dispatch E df).
Proof.
  intros Hne Hin. unfold dispatch, st_sidebar_radio.
  destruct (getcol_In df TARGET_FEATURE Hin) as [col [Hcol _]].
  apply only_external_bind; [only_external_tac|intro page].
  repeat match goal with
         | |- only_external _ (if ?c then _ else _) => destruct c
         end;
    auto using home_page_only_external, data_overview_page_only_external,
      univariate_analysis_page_only_external, correlation_page_only_external,
      defaulter_profiling_page_only_external, only_external_ret.
  apply (only_external_returns E _ tt). now apply (bivariates_page_returns E df _ col).
Qed.

(** X4.  The application raises no exception of its own: when a run of
    [main] ends by an exception, that exception was raised by one of the
    external chart or table calls.  In particular no page looks up a column
    the frame lacks: the selections come from the frame's columns and the
    target column was checked at start-up. *)
Theorem main_raises_only_external_errors :
  forall (E : env) (e : exn) (evs : list event),
    main E = (Exc e, evs) -> exists c, raises E c = Some e.
Proof.
  intros E. change (only_external E (main E)). unfold main.
  destruct (read_csv E "data.csv") as [df|err].
  - destruct (columns df) as [|c cs] eqn:Hcols.
    + unfold preamble. only_external_tac.
    + apply only_external_bind; [unfold preamble; only_external_tac|intro].
      apply only_external_bind; [auto with ui|intro].
      destruct (mem TARGET_FEATURE (c :: cs)) eqn:Hmem.
      * apply only_external_bind; [auto with ui|intro].
        apply dispatch_only_external; rewrite Hcols; [discriminate|].
        now apply mem_In.
      * intros e evs H. discriminate.
  - destruct err as [cls msg]. unfold preamble.
    destruct cls; only_external_tac.
Qed.

Lemma main_raises_only_external_errors_witness :
  exists c, raises (histogram_fails sample_df) c = Some figure_error.
Proof.
  apply (main_raises_only_external_errors (histogram_fails sample_df) figure_error
           [SetPageConfig "wide" "Bivariate Analysis Dashboard";
            Title "Bivariate Analysis Dashboard";
            Markdown intro_text;
            SidebarHeader "Navigation";
            SidebarRadio "Go to" PAGES;
            Header "Univariate Analysis";
            Markdown "Explore the distribution of individual features in your dataset.";
            Selectbox "Select a feature to analyze" ["age"; "default_ind"];
            Subheader "Distribution of age"]).
  reflexivity.
Defined.

(** ** Identity binning and the index of the labels *)

(** X6.  A series that holds a cell which is not a number (a string, say)
    cannot be cut: both library calls raise and [safe_binning] answers with
    the identity binning, every non-missing cell being its own label and the
    distinct cells the edges. *)
Theorem safe_binning_identity_on_strings :
  forall (lib : library)
         (series : Series) (bins : nat) (i : nat) (t : string),
    In (i, Str t) series ->
    safe_binning lib series bins =
    Ok (dropna series, unique (values (dropna series))).
Proof.
  intros lib series bins i t Hin.
  assert (Hs : In (i, Str t) (dropna series)) by (apply dropna_In; now split).
  assert (Hnn : existsb non_numeric (values (dropna series)) = true).
  { apply existsb_exists. exists (Str t). split; [|reflexivity].
    unfold values. change (Str t) with (snd (i, Str t)). now apply in_map. }
  rewrite safe_binning_chain.
  assert (Hne : empty (dropna series) = false).
  { destruct (dropna series); [contradiction|reflexivity]. }
  assert (Hcut : exists e, pd_cut (dropna series) bins = Raise e).
  { unfold pd_cut. rewrite Hne, Hnn. destruct (bins <? 1); eexists; reflexivity. }
  assert (Hqcut : exists e, pd_qcut lib (dropna series) bins = Raise e).
  { unfold pd_qcut. rewrite Hnn. eexists; reflexivity. }
  destruct Hcut as [e1 Hcut]. destruct Hqcut as [e2 Hqcut].
  rewrite Hne, Hcut, Hqcut.
  now destruct (bins <? length (np_unique (dropna series))).
Qed.

Lemma safe_binning_identity_on_strings_witness :
  safe_binning reference_library (range_series [Str "Pune"; NoneV; Str "Agra"; Str "Pune"]) 5 =
  Ok (dropna (range_series [Str "Pune"; NoneV; Str "Agra"; Str "Pune"]),
      unique (values (dropna (range_series [Str "Pune"; NoneV; Str "Agra"; Str "Pune"])))).
Proof.
  apply (safe_binning_identity_on_strings reference_library
           (range_series [Str "Pune"; NoneV; Str "Agra"; Str "Pune"]) 5 0 "Pune").
  left. reflexivity.
Defined.

(** X7.  On a series without infinite cells the labels [safe_binning]
    returns are aligned with its input: they carry exactly the index labels
    of the cells that are not missing, in the same order, whichever of the
    three binnings produced them.  (This is what lets line 73 put the labels
    and the target in one frame.) *)
Theorem safe_binning_labels_aligned :
  forall (lib : library)
         (series : Series) (bins : nat),
    existsb is_inf (values (dropna series)) = false ->
    exists labels edges,
      safe_binning lib series bins = Ok (labels, edges)
      /\ index labels = index (dropna series)
      /\ length labels = length (filter (fun v => negb (isna v)) (values series)).
Proof.
  intros lib series bins Hinf.
  destruct (safe_binning lib series bins) as [[labels edges]|e] eqn:Hsb;
    [|rewrite safe_binning_chain in Hsb; discriminate].
  exists labels, edges. split; [reflexivity|].
  pose proof (safe_binning_index lib series bins labels edges Hsb) as Hidx.
  split; [exact Hidx|].
  rewrite <- (length_map fst labels). fold (index labels). rewrite Hidx.
  unfold index, values, dropna. rewrite length_map.
  clear. induction series as [|[i v] series IH]; simpl; trivial.
  destruct (isna v); simpl; now rewrite IH.
Qed.

Lemma safe_binning_labels_aligned_witness :
  exists labels edges,
    safe_binning reference_library (range_series [Num (Fin 3); Num NaN; Num (Fin 1)]) 2 =
    Ok (labels, edges)
    /\ index labels = index (dropna (range_series [Num (Fin 3); Num NaN; Num (Fin 1)]))
    /\ length labels =
       length (filter (fun v => negb (isna v))
                      (values (range_series [Num (Fin 3); Num NaN; Num (Fin 1)]))).
Proof.
  apply (safe_binning_labels_aligned reference_library
           (range_series [Num (Fin 3); Num NaN; Num (Fin 1)]) 2).
  reflexivity.
Defined.

(** ** The paired exclusion on any two columns *)

Lemma filter_all {A} (p : A -> bool) (l : list A) :
  (forall a, In a l -> p a = true) -> filter p l = l.
Proof.
  induction l as [|a l IH]; simpl; trivial. intros H.
  rewrite (H a) by now left. f_equal. apply IH. intros b Hb. apply H. now right.
Qed.

Lemma index_loc (s : Series) (i : nat) :
  In i (index s) -> exists v, loc i s = Some v /\ In (i, v) s.
Proof.
  unfold index. induction s as [|[j w] s IH]; simpl; [contradiction|].
  destruct (i =? j) eqn:Hij.
  - apply Nat.eqb_eq in Hij. subst. intros _. exists w. split; trivial. now left.
  - intros [H|H]; [apply Nat.eqb_neq in Hij; congruence|].
    destruct (IH H) as [v [H1 H2]]. exists v. split; trivial. now right.
Qed.

Lemma replace_inf_cell_clean (v : value) :
  is_inf (replace_inf_cell v) = false.
Proof. destruct v as [[| | |]| | |]; reflexivity. Qed.

Lemma replace_inf_cell_id (v : value) : is_inf v = false -> replace_inf_cell v = v.
Proof. destruct v as [[| | |]| | |]; trivial; discriminate. Qed.

Section PairedExclusion.

Variables xs ys : list value.

Let x0 : Series := range_series xs.
Let y0 : Series := range_series ys.
Let x : Series := fst (paired_exclusion x0 y0).
Let y : Series := snd (paired_exclusion x0 y0).

Lemma paired_x_cell (i : nat) (v : value) :
  In (i, v) x ->
  isna v = false /\ is_inf v = false
  /\ exists w, nth_error xs i = Some w /\ v = replace_inf_cell w.
Proof.
  unfold x. rewrite paired_exclusion_filter. cbn [fst].
  rewrite filter_In. cbn [fst]. intros [Hin Hret].
  unfold replace_inf in Hin. apply in_map_iff in Hin.
  destruct Hin as [[j w] [Heq Hin]]. cbn [fst snd] in Heq. inversion Heq. subst.
  assert (Hloc : loc i x0 = Some w)
    by (apply In_loc; [apply NoDup_index_range_series|exact Hin]).
  unfold retained in Hret. rewrite Hloc in Hret.
  destruct (loc i y0); [|discriminate].
  apply andb_true_iff in Hret. destruct Hret as [Hret _].
  apply negb_true_iff in Hret.
  split; [exact Hret|]. split; [apply replace_inf_cell_clean|].
  exists w. split; trivial.
  unfold x0 in Hloc. now rewrite loc_range_series in Hloc.
Qed.

Lemma paired_y_cell (i : nat) (t : value) :
  In (i, t) y -> isna t = false /\ nth_error ys i = Some t.
Proof.
  unfold y. rewrite paired_exclusion_filter. cbn [snd].
  rewrite filter_In. cbn [fst]. intros [Hin Hret].
  assert (Hloc : loc i y0 = Some t)
    by (apply In_loc; [apply NoDup_index_range_series|exact Hin]).
  unfold retained in Hret. rewrite Hloc in Hret.
  destruct (loc i x0); [|discriminate].
  apply andb_true_iff in Hret. destruct Hret as [_ Hret].
  apply negb_true_iff in Hret. split; trivial.
  unfold y0 in Hloc. now rewrite loc_range_series in Hloc.
Qed.

Lemma paired_x_NoDup : NoDup (index x).
Proof.
  unfold x. rewrite paired_exclusion_filter. cbn [fst].
  rewrite index_filter_fst. apply NoDup_filter. unfold replace_inf.
  rewrite (index_map_snd (fun iv => replace_inf_cell (snd iv))).
  apply NoDup_index_range_series.
Qed.

Lemma paired_idempotent : paired_exclusion x y = (x, y).
Proof.
  assert (Hidx : index x = index y) by apply paired_exclusion_index.
  assert (Hret : forall i, In i (index x) -> retained x y i = true).
  { intros i Hi. unfold retained.
    destruct (index_loc x i Hi) as [v [Hv Hin]].
    rewrite Hidx in Hi. destruct (index_loc y i Hi) as [t [Ht Hin']].
    rewrite Hv, Ht.
    destruct (paired_x_cell i v Hin) as [Hna [Hinf _]].
    destruct (paired_y_cell i t Hin') as [Hna' _].
    rewrite (replace_inf_cell_id v Hinf), Hna, Hna'. reflexivity. }
  assert (Hrep : replace_inf x = x).
  { unfold replace_inf. rewrite <- (map_id x) at 2. apply map_ext_in.
    intros [i v] Hin. cbn [fst snd].
    destruct (paired_x_cell i v Hin) as [_ [Hinf _]].
    now rewrite (replace_inf_cell_id v Hinf). }
  assert (H1 : filter (fun iv => retained x y (fst iv)) x = x).
  { apply filter_all. intros [i v] Hin. cbn [fst]. apply Hret. unfold index.
    change i with (fst (i, v)). now apply in_map. }
  assert (H2 : filter (fun iv => retained x y (fst iv)) y = y).
  { apply filter_all. intros [i t] Hin. cbn [fst]. apply Hret. rewrite Hidx.
    unfold index. change i with (fst (i, t)). now apply in_map. }
  rewrite paired_exclusion_filter, Hrep, H1, H2. reflexivity.
Qed.

End PairedExclusion.

(** X8.  Whatever the two columns hold (numbers, strings, missing cells),
    after lines 61-66 the feature has no missing and no infinite cell, the
    target has no missing cell, every kept cell is the cell of its row in
    the frame (an infinite feature cell would have become NaN and gone),
    both carry the same index labels, and running the exclusion again on the
    result changes nothing. *)
Theorem paired_exclusion_leaves_valid_rows :
  forall (xs ys : list value),
    let x := fst (paired_exclusion (range_series xs) (range_series ys)) in
    let y := snd (paired_exclusion (range_series xs) (range_series ys)) in
    index x = index y
    /\ (forall i v, In (i, v) x ->
          isna v = false /\ is_inf v = false /\ nth_error xs i = Some v)
    /\ (forall i t, In (i, t) y -> isna t = false /\ nth_error ys i = Some t)
    /\ paired_exclusion x y = (x, y).
Proof.
  intros xs ys x y. split; [|split; [|split]].
  - apply paired_exclusion_index.
  - intros i v Hin. destruct (paired_x_cell xs ys i v Hin) as [Hna [Hinf [w [Hw Hv]]]].
    repeat split; trivial. rewrite Hw. f_equal.
    subst v. symmetry. apply replace_inf_cell_id.
    destruct w as [[| | |]| | |]; trivial; discriminate.
  - apply paired_y_cell.
  - apply paired_idempotent.
Qed.

(** ** A column the frame lacks *)

Lemma getitem_missing (df : DataFrame) (name : string) :
  dict_get name df = None -> getitem df name = Raise (key_error name).
Proof. intros H. unfold getitem, getcol. now rewrite H. Qed.

Lemma getitem_present (df : DataFrame) (name : string) (c : column) :
  dict_get name df = Some c -> getitem df name = Ok (range_series (col_cells c)).
Proof. intros H. unfold getitem, getcol. now rewrite H. Qed.

(** X9.  When the frame has no column of the feature's name, or has it but
    has none of the target's name, [plot_event_rate_bar] draws no table and
    no chart: the [KeyError] is caught and the page gets one [st.error]
    message that quotes the missing name; the call returns normally. *)
Theorem plot_event_rate_bar_missing_column :
  forall (E : env) (df : DataFrame) (x_feature y_feature : string) (n_bins_x : nat),
    (dict_get x_feature df = None ->
     plot_event_rate_bar E df x_feature y_feature n_bins_x =
     (Ret tt, [Error ("❌ Could not generate binning chart for "
                        ++ x_feature ++ ": '" ++ x_feature ++ "'")%string]))
    /\ (forall c, dict_get x_feature df = Some c -> dict_get y_feature df = None ->
        plot_event_rate_bar E df x_feature y_feature n_bins_x =
        (Ret tt, [Error ("❌ Could not generate binning chart for "
                           ++ x_feature ++ ": '" ++ y_feature ++ "'")%string])).
Proof.
  intros E df x_feature y_feature n_bins_x. split.
  - intros Hx. unfold plot_event_rate_bar, plot_event_rate_bar_body.
    rewrite (getitem_missing df x_feature Hx). reflexivity.
  - intros c Hx Hy. unfold plot_event_rate_bar, plot_event_rate_bar_body.
    rewrite (getitem_present df x_feature c Hx), (getitem_missing df y_feature Hy).
    reflexivity.
Qed.

Lemma plot_event_rate_bar_missing_column_witness :
  plot_event_rate_bar (quiet_env sample_df) sample_df "income" "default_ind" 5 =
  (Ret tt, [Error "❌ Could not generate binning chart for income: 'income'"]).
Proof.
  apply (plot_event_rate_bar_missing_column (quiet_env sample_df) sample_df
           "income" "default_ind" 5).
  reflexivity.
Defined.

(** ** The shape of the event-rate table *)

Lemma Qeq_bool_sym (p q : Q) : Qeq_bool p q = Qeq_bool q p.
Proof.
  destruct (Qeq_bool p q) eqn:H1, (Qeq_bool q p) eqn:H2; trivial.
  - apply Qeq_bool_iff in H1. apply Qeq_bool_neq in H2. exfalso. apply H2. now symmetry.
  - apply Qeq_bool_iff in H2. apply Qeq_bool_neq in H1. exfalso. apply H1. now symmetry.
Qed.

Lemma fval_eqb_sym (a b : fval) : fval_eqb a b = fval_eqb b a.
Proof. destruct a, b; simpl; trivial. apply Qeq_bool_sym. Qed.

Lemma fval_eqb_refl (a : fval) : fval_eqb a a = true.
Proof. destruct a; simpl; trivial. apply Qeq_bool_refl. Qed.

Lemma value_eqb_sym (a b : value) : value_eqb a b = value_eqb b a.
Proof.
  destruct a as [x|s|l r|], b as [y|t|l' r'|]; simpl; trivial.
  - apply fval_eqb_sym.
  - apply String.eqb_sym.
  - now rewrite (fval_eqb_sym l l'), (fval_eqb_sym r r').
Qed.

Lemma value_eqb_refl (a : value) : value_eqb a a = true.
Proof.
  destruct a as [x|s|l r|]; simpl; trivial.
  - apply fval_eqb_refl.
  - apply String.eqb_refl.
  - now rewrite !fval_eqb_refl.
Qed.

Lemma FOP_snoc {A} (R : A -> A -> Prop) (l : list A) (k : A) :
  ForallOrdPairs R l -> Forall (fun a => R a k) l -> ForallOrdPairs R (l ++ [k]).
Proof.
  induction 1 as [|a l Ha Hl IH]; simpl; intros Hk.
  - constructor; constructor.
  - inversion Hk as [|? ? Hak Hk']. subst. constructor.
    + apply Forall_app. split; trivial. now constructor.
    + now apply IH.
Qed.

(** Pairwise properties that do not depend on the order of the pair survive
    a rearrangement. *)
Lemma FOP_Permutation {A} (R : A -> A -> Prop) (l l' : list A) :
  (forall a b, R a b -> R b a) ->
  Permutation l l' -> ForallOrdPairs R l -> ForallOrdPairs R l'.
Proof.
  intros Hsym. induction 1 as [|x l l' Hp IH|x y l|l l' l'' _ IH1 _ IH2]; intros H.
  - exact H.
  - inversion H as [|? ? Hx Hl]. subst. constructor; [|now apply IH].
    now apply (Permutation_Forall Hp).
  - inversion H as [|? ? Hy Hl]. subst.
    inversion Hl as [|? ? Hx Hl']. subst.
    inversion Hy as [|? ? Hyx Hy']. subst.
    constructor; [constructor; [now apply Hsym|exact Hx]|].
    now constructor.
  - now apply IH2, IH1.
Qed.

Lemma add_row_keys (k v : value) (gs : list group) :
  map fst (add_row k v gs) =
  if existsb (value_eqb k) (map fst gs) then map fst gs else map fst gs ++ [k].
Proof.
  induction gs as [|[k' vs] gs IH]; simpl; trivial.
  destruct (value_eqb k k'); simpl; trivial.
  rewrite IH. now destruct (existsb (value_eqb k) (map fst gs)).
Qed.

Lemma add_row_distinct (k v : value) (gs : list group) :
  ForallOrdPairs (fun a b => value_eqb a b = false) (map fst gs) ->
  ForallOrdPairs (fun a b => value_eqb a b = false) (map fst (add_row k v gs)).
Proof.
  intros H. rewrite add_row_keys.
  destruct (existsb (value_eqb k) (map fst gs)) eqn:Hex; trivial.
  apply FOP_snoc; trivial. apply Forall_forall. intros a Ha.
  rewrite value_eqb_sym.
  destruct (value_eqb k a) eqn:Hka; trivial.
  assert (existsb (value_eqb k) (map fst gs) = true)
    by (apply existsb_exists; now exists a).
  congruence.
Qed.

Lemma add_row_key_In (k v : value) (gs : list group) (a : value) :
  In a (map fst (add_row k v gs)) -> a = k \/ In a (map fst gs).
Proof.
  rewrite add_row_keys.
  destruct (existsb (value_eqb k) (map fst gs)); [now right|].
  intros H. apply in_app_or in H. destruct H as [H|[H|[]]]; auto.
Qed.

Lemma add_row_key_kept (k v : value) (gs : list group) (a : value) :
  In a (map fst gs) -> In a (map fst (add_row k v gs)).
Proof.
  rewrite add_row_keys.
  destruct (existsb (value_eqb k) (map fst gs)); trivial.
  intros H. apply in_or_app. now left.
Qed.

Lemma add_row_key_found (k v : value) (gs : list group) :
  exists k', In k' (map fst (add_row k v gs)) /\ value_eqb k k' = true.
Proof.
  rewrite add_row_keys.
  destruct (existsb (value_eqb k) (map fst gs)) eqn:Hex.
  - apply existsb_exists in Hex. destruct Hex as [k' [H1 H2]]. now exists k'.
  - exists k. split; [apply in_or_app; right; now left|apply value_eqb_refl].
Qed.

(** The groups have pairwise different keys; each is the key of some row
    and is not missing; and every key that is not missing has its group. *)
Lemma collect_groups_keys (rows : list (value * value)) :
  ForallOrdPairs (fun a b => value_eqb a b = false) (map fst (collect_groups rows))
  /\ (forall a, In a (map fst (collect_groups rows)) ->
        In a (map fst rows) /\ isna a = false)
  /\ (forall k, In k (map fst rows) -> isna k = false ->
        exists k', In k' (map fst (collect_groups rows)) /\ value_eqb k k' = true).
Proof.
  unfold collect_groups.
  set (step := fun (gs : list group) (kv : value * value) =>
                 if isna (fst kv) then gs else add_row (fst kv) (snd kv) gs).
  assert (G : forall gs,
             ForallOrdPairs (fun a b => value_eqb a b = false) (map fst gs) ->
             ForallOrdPairs (fun a b => value_eqb a b = false)
               (map fst (fold_left step rows gs))
             /\ (forall a, In a (map fst (fold_left step rows gs)) ->
                   In a (map fst gs) \/ (In a (map fst rows) /\ isna a = false))
             /\ (forall a, In a (map fst gs) -> In a (map fst (fold_left step rows gs)))
             /\ (forall k, In k (map fst rows) -> isna k = false ->
                   exists k', In k' (map fst (fold_left step rows gs))
                              /\ value_eqb k k' = true)).
  { induction rows as [|[k v] rows IH]; intros gs Hgs; simpl.
    - split; [exact Hgs|]. split; [now left|]. split; [trivial|]. intros k [].
    - unfold step at 2 4 6 8. cbn [fst snd].
      destruct (isna k) eqn:Hk.
      + destruct (IH gs Hgs) as [H1 [H2 [H3 H4]]].
        split; [exact H1|]. split; [|split; [exact H3|]].
        * intros a Ha. destruct (H2 a Ha) as [H|[H H']]; [now left|right].
          split; [now right|exact H'].
        * intros k0 [<-|Hin] Hna; [congruence|]. now apply H4.
      + destruct (IH (add_row k v gs) (add_row_distinct k v gs Hgs)) as [H1 [H2 [H3 H4]]].
        split; [exact H1|]. split; [|split].
        * intros a Ha. destruct (H2 a Ha) as [H|[H H']].
          -- apply add_row_key_In in H. destruct H as [->|H]; [|now left].
             right. split; [now left|exact Hk].
          -- right. split; [now right|exact H'].
        * intros a Ha. apply H3. now apply add_row_key_kept.
        * intros k0 [<-|Hin] Hna; [|now apply H4].
          destruct (add_row_key_found k v gs) as [k' [Hin Heq]].
          exists k'. split; [now apply H3|exact Heq]. }
  destruct (G [] (FOP_nil _)) as [H1 [H2 [_ H4]]].
  split; [exact H1|]. split; [|exact H4].
  intros a Ha. destruct (H2 a Ha) as [[]|H]; exact H.
Qed.

Lemma groups_of_keys (rows : list (value * value)) :
  ForallOrdPairs (fun a b => value_eqb a b = false) (map fst (groups_of rows))
  /\ (forall a, In a (map fst (groups_of rows)) ->
        In a (map fst rows) /\ isna a = false)
  /\ (forall k, In k (map fst rows) -> isna k = false ->
        exists k', In k' (map fst (groups_of rows)) /\ value_eqb k k' = true).
Proof.
  destruct (collect_groups_keys rows) as [H1 [H2 H3]].
  pose proof (Permutation_map fst (sort_groups_Permutation (collect_groups rows))) as Hp.
  fold (groups_of rows) in Hp.
  split; [|split].
  - apply (FOP_Permutation _ _ _ (fun a b H => eq_trans (value_eqb_sym b a) H)
             (Permutation_sym Hp) H1).
  - intros a Ha. apply H2. now apply (Permutation_in _ Hp).
  - intros k Hk Hna. destruct (H3 k Hk Hna) as [k' [Hin Heq]].
    exists k'. split; [|exact Heq]. now apply (Permutation_in _ (Permutation_sym Hp)).
Qed.

(** *** The order of the rows *)

Lemma ascii_compare_trans (a b c : Ascii.ascii) :
  Ascii.compare a b = Lt -> Ascii.compare b c = Lt -> Ascii.compare a c = Lt.
Proof. unfold Ascii.compare. rewrite !N.compare_lt_iff. apply N.lt_trans. Qed.

Lemma string_compare_trans (s1 s2 s3 : string) :
  String.compare s1 s2 <> Gt -> String.compare s2 s3 <> Gt ->
  String.compare s1 s3 <> Gt.
Proof.
  revert s2 s3. induction s1 as [|c1 s1 IH]; intros [|c2 s2] [|c3 s3]; simpl;
    try congruence.
  destruct (Ascii.compare c1 c2) eqn:H12; [| |congruence].
  - apply Ascii.compare_eq_iff in H12. subst c2.
    destruct (Ascii.compare c1 c3); [apply IH|congruence|auto].
  - intros _. destruct (Ascii.compare c2 c3) eqn:H23; [| |congruence].
    + apply Ascii.compare_eq_iff in H23. subst c3. rewrite H12. congruence.
    + rewrite (ascii_compare_trans _ _ _ H12 H23). congruence.
Qed.

Lemma string_leb_trans (s1 s2 s3 : string) :
  String.leb s1 s2 = true -> String.leb s2 s3 = true -> String.leb s1 s3 = true.
Proof.
  unfold String.leb. intros H1 H2.
  pose proof (string_compare_trans s1 s2 s3) as H.
  destruct (String.compare s1 s2); try discriminate;
    destruct (String.compare s2 s3); try discriminate;
      destruct (String.compare s1 s3); trivial; exfalso; apply H; congruence.
Qed.

Lemma insert_group_sorted (g : group) (gs : list group) :
  string_key g -> Forall string_key gs ->
  StronglySorted (fun a b => key_leb (fst a) (fst b) = true) gs ->
  StronglySorted (fun a b => key_leb (fst a) (fst b) = true) (insert_group g gs).
Proof.
  intros [s Hs] Hkeys Hsorted.
  induction Hsorted as [|h gs Hgs IH Hh]; simpl.
  - constructor; constructor.
  - inversion Hkeys as [|? ? [t Ht] Hkeys']. subst.
    destruct (key_leb (fst g) (fst h)) eqn:Hgh.
    + constructor; [now constructor|].
      constructor; trivial.
      apply Forall_forall. intros a Ha.
      pose proof (proj1 (Forall_forall _ _) Hh a Ha) as Hha.
      destruct (proj1 (Forall_forall _ _) Hkeys' a Ha) as [u Hu].
      cbv beta in Hha. rewrite Hs, Ht in Hgh. rewrite Ht, Hu in Hha. rewrite Hs, Hu.
      cbn [key_leb] in *. now apply string_leb_trans with t.
    + constructor; [now apply IH|].
      apply (Permutation_Forall (Permutation_sym (insert_group_Permutation g gs))).
      constructor; trivial.
      rewrite Hs, Ht in Hgh. rewrite Ht, Hs. cbn [key_leb] in *.
      destruct (String.leb_total s t) as [H|H]; [congruence|exact H].
Qed.

(** Groups keyed by strings come out in ascending order of their keys. *)
Lemma sort_groups_sorted (gs : list group) :
  Forall string_key gs ->
  StronglySorted (fun a b => key_leb (fst a) (fst b) = true) (sort_groups gs).
Proof.
  unfold sort_groups. induction 1 as [|g gs Hg Hgs IH]; simpl; [constructor|].
  apply insert_group_sorted; trivial.
  now apply (Permutation_Forall (Permutation_sym (sort_groups_Permutation gs))).
Qed.

(** *** The table *)

Lemma printed_key (xb : Series) (ys : list value) (k : value) :
  In k (map fst (combine (values (astype_str xb)) ys)) -> isna k = false ->
  exists l, In l (values (dropna xb)) /\ k = Str (py_str_value l).
Proof.
  intros Hin Hna. apply in_map_iff in Hin. destruct Hin as [[k' t] [<- Hin]].
  apply in_combine_l in Hin. cbn [fst] in *.
  unfold values, astype_str in Hin. rewrite map_map in Hin. cbn [snd] in Hin.
  apply in_map_iff in Hin. destruct Hin as [[i l] [<- Hin]]. cbn [snd] in *.
  unfold astype_str_cell in *. destruct (isna l) eqn:Hl; [congruence|].
  exists l. split; [|reflexivity].
  unfold values. change l with (snd (i, l)). apply in_map.
  apply dropna_In. now split.
Qed.

Lemma printed_key_In (xb : Series) (ys : list value) (l : value) :
  length xb = length ys ->
  In l (values (dropna xb)) ->
  In (Str (py_str_value l)) (map fst (combine (values (astype_str xb)) ys)).
Proof.
  intros Hlen Hin. unfold values in Hin. apply in_map_iff in Hin.
  destruct Hin as [[i l'] [Heq Hin]]. cbn [snd] in Heq. subst l'.
  apply dropna_In in Hin. destruct Hin as [Hin Hna].
  assert (Hk : In (Str (py_str_value l)) (values (astype_str xb))).
  { unfold values, astype_str. rewrite map_map. cbn [snd].
    apply in_map_iff. exists (i, l). split; trivial.
    cbn [snd]. unfold astype_str_cell. now rewrite Hna. }
  assert (Hlen' : length (values (astype_str xb)) = length ys).
  { unfold values, astype_str. now rewrite !length_map. }
  clear - Hk Hlen'. revert ys Hlen'.
  induction (values (astype_str xb)) as [|k ks IH]; intros [|t ys] Hlen;
    simpl in *; try discriminate; [contradiction|].
  destruct Hk as [->|Hk]; [now left|right]. apply IH; trivial. lia.
Qed.

(** X10.  For a numeric feature and target and a target column not named
    "x_bin", the event-rate table lists exactly the bins that occur: every
    row is the printed label of a retained row that has a label, with a
    count of at least 1; every label of a retained row has its row; no bin
    appears twice; there are no more rows than retained rows; and the rows
    come in ascending order of the printed labels, which is the order of
    strings, not of numbers. *)
Theorem event_rate_table_shape :
  forall (lib : library)
         (feature target : list fval) (y_feature : string) (n_bins_x : nat),
    String.eqb y_feature "x_bin" = false ->
    let x := fst (paired_exclusion (range_series (map Num feature))
                                   (range_series (map Num target))) in
    let y := snd (paired_exclusion (range_series (map Num feature))
                                   (range_series (map Num target))) in
    exists x_binned edges rows,
      safe_binning lib x n_bins_x = Ok (x_binned, edges)
      /\ event_rate_df lib x y y_feature n_bins_x = Ok rows
      /\ Forall (fun r => 1 <= Count r
                          /\ exists l, In l (values (dropna x_binned))
                                       /\ Bin r = Str (py_str_value l)) rows
      /\ (forall l, In l (values (dropna x_binned)) ->
            exists r, In r rows /\ Bin r = Str (py_str_value l))
      /\ distinct_bins rows
      /\ length rows <= length x
      /\ StronglySorted (fun r r' => key_leb (Bin r) (Bin r') = true) rows.
Proof.
  intros lib feature target y_feature n_bins_x Hname x y.
  destruct (finite_cells_dropna x (x_cells_finite feature target)) as [Hdrop _].
  fold x in Hdrop.
  destruct (safe_binning lib x n_bins_x) as [[xb e]|err] eqn:Hsb;
    [|rewrite safe_binning_chain in Hsb; discriminate].
  assert (Hidx0 : index xb = index x).
  { rewrite (safe_binning_index lib x n_bins_x xb e Hsb). now rewrite Hdrop. }
  assert (Hidx : index xb = index y).
  { rewrite Hidx0. apply paired_exclusion_index. }
  assert (Hlenxy : length xb = length (values y)).
  { unfold values. rewrite length_map.
    rewrite <- (length_map fst xb), <- (length_map fst y). fold (index xb) (index y).
    now rewrite Hidx. }
  assert (Hlenx : length xb = length x).
  { rewrite <- (length_map fst xb), <- (length_map fst x). fold (index xb) (index x).
    now rewrite Hidx0. }
  assert (Hdf : event_rate_df lib x y y_feature n_bins_x =
                result_map agg_mean_count
                  (groups_of (combine (values (astype_str xb)) (values y)))).
  { unfold event_rate_df. rewrite Hsb.
    rewrite (binned_frame_groupby xb y y_feature Hidx (paired_exclusion_NoDup _ _)).
    now rewrite Hname. }
  set (rs := combine (values (astype_str xb)) (values y)) in *.
  destruct (groups_of_keys rs) as [Hdistinct [Hkeys Hcover]].
  assert (Hgroups : Forall (fun g => snd g <> [] /\ Forall present_number (snd g))
                           (groups_of rs)).
  { apply groups_of_Forall. apply (Forall_combine_r present_number).
    apply (y_cells_present feature target). }
  destruct (result_map_Forall2 agg_mean_count
              (fun g r => Bin r = fst g /\ Count r = group_size g)
              (groups_of rs)) as [rows [Hrows HF2]].
  { eapply Forall_impl; [|exact Hgroups]. intros g [_ Hg].
    destruct (agg_present g Hg) as [xs [_ H2]].
    eexists. split; [exact H2|]. now split. }
  assert (Hbins_eq : map Bin rows = map fst (groups_of rs)).
  { clear - HF2. induction HF2 as [|g r gs rows [H _] _ IH]; simpl; trivial.
    now rewrite H, IH. }
  assert (Hcounts : list_sum (map Count rows) = total_size (groups_of rs)).
  { apply Forall2_counts. eapply Forall2_impl; [|exact HF2]. now intros g r [_ H]. }
  assert (Hpos : Forall (fun r => 1 <= Count r) rows).
  { clear - HF2 Hgroups.
    induction HF2 as [|g r gs rows [_ HC] _ IH]; constructor.
    - inversion Hgroups as [|? ? [Hne _] _]. subst.
      rewrite HC. unfold group_size. destruct (snd g); [contradiction|simpl; lia].
    - apply IH. now inversion Hgroups. }
  assert (Hstr : forall k, In k (map fst (groups_of rs)) ->
                   exists l, In l (values (dropna xb)) /\ k = Str (py_str_value l)).
  { intros k Hk. destruct (Hkeys k Hk) as [Hin Hna].
    now apply (printed_key xb (values y)). }
  exists xb, e, rows.
  split; [reflexivity|]. split; [rewrite Hdf; exact Hrows|].
  split; [|split; [|split; [|split]]].
  - apply Forall_forall. intros r Hr. split.
    + now apply (proj1 (Forall_forall _ _) Hpos).
    + apply Hstr. rewrite <- Hbins_eq. now apply in_map.
  - intros l Hl.
    destruct (Hcover (Str (py_str_value l))) as [k' [Hk' Heq]].
    + now apply printed_key_In.
    + reflexivity.
    + destruct (Hstr k' Hk') as [l' [_ ->]].
      cbn [value_eqb] in Heq. apply String.eqb_eq in Heq.
      rewrite <- Hbins_eq in Hk'. apply in_map_iff in Hk'.
      destruct Hk' as [r [HB Hr]]. exists r. split; [exact Hr|].
      now rewrite HB, Heq.
  - unfold distinct_bins. rewrite <- Hbins_eq in Hdistinct.
    clear - Hdistinct. induction rows as [|r rows IH]; [constructor|].
    simpl in Hdistinct. inversion Hdistinct as [|? ? Ha Hl]. subst.
    constructor; [|now apply IH].
    apply Forall_forall. intros r' Hr'.
    apply (proj1 (Forall_forall _ _) Ha). now apply in_map.
  - apply Nat.le_trans with (list_sum (map Count rows)).
    + clear - Hpos. induction Hpos as [|r rows Hr _ IH]; simpl; lia.
    + rewrite Hcounts. unfold rs. rewrite groups_of_total_present.
      rewrite printed_keys_present by exact Hlenxy.
      rewrite <- Hlenx. unfold dropna. clear.
      induction xb as [|a l IH]; simpl; [lia|].
      destruct (negb (isna (snd a))); simpl; lia.
  - assert (Hsorted : StronglySorted (fun a b => key_leb (fst a) (fst b) = true)
                                     (groups_of rs)).
    { unfold groups_of. apply sort_groups_sorted.
      apply Forall_forall. intros g Hg.
      destruct (proj1 (proj2 (collect_groups_keys rs)) (fst g)) as [Hin Hna];
        [now apply in_map|].
      destruct (printed_key xb (values y) (fst g) Hin Hna) as [l [_ Hl]].
      now exists (py_str_value l). }
    clear - HF2 Hsorted.
    induction HF2 as [|g r gs rows [HB _] HF IH]; [constructor|].
    inversion Hsorted as [|? ? Hs Hg]. subst.
    constructor; [now apply IH|].
    rewrite HB. clear - HF Hg.
    induction HF as [|g' r' gs rows [HB' _] _ IH]; constructor.
    + rewrite HB'. now inversion Hg.
    + apply IH. now inversion Hg.
Qed.

Lemma event_rate_table_shape_witness :
  exists x_binned edges rows,
    safe_binning reference_library
      (fst (paired_exclusion (range_series (map Num scenario_feature))
                             (range_series (map Num scenario_target)))) 2 =
    Ok (x_binned, edges)
    /\ event_rate_df reference_library
         (fst (paired_exclusion (range_series (map Num scenario_feature))
                                (range_series (map Num scenario_target))))
         (snd (paired_exclusion (range_series (map Num scenario_feature))
                                (range_series (map Num scenario_target))))
         "default_ind" 2 = Ok rows
    /\ Forall (fun r => 1 <= Count r
                        /\ exists l, In l (values (dropna x_binned))
                                     /\ Bin r = Str (py_str_value l)) rows
    /\ (forall l, In l (values (dropna x_binned)) ->
          exists r, In r rows /\ Bin r = Str (py_str_value l))
    /\ distinct_bins rows
    /\ length rows <=
       length (fst (paired_exclusion (range_series (map Num scenario_feature))
                                     (range_series (map Num scenario_target))))
    /\ StronglySorted (fun r r' => key_leb (Bin r) (Bin r') = true) rows.
Proof.
  apply (event_rate_table_shape reference_library scenario_feature scenario_target
           "default_ind" 2).
  reflexivity.
Defined.

(** ** What the pages offer and draw *)

Lemma numerical_feature_In (df : DataFrame) (name : string) :
  In name (numerical_features df) ->
  exists col, In (name, col) df /\ col_dtype col = Number.
Proof.
  unfold numerical_features, columns, select_dtypes_include_number.
  intros H. apply in_map_iff in H. destruct H as [[k col] [Hk Hin]].
  cbn [fst] in Hk. subst k. apply filter_In in Hin. destruct Hin as [Hin Hnum].
  exists col. split; trivial. cbn [snd] in Hnum. unfold is_number in Hnum.
  now destruct (col_dtype col).
Qed.

(** X11.  Whenever the bivariate page offers the two plot types, the
    feature that will be plotted is a column of the frame with a number
    dtype, and it is not the target column itself. *)
Theorem bivariates_page_plots_numeric_non_target :
  forall (E : env) (df : DataFrame) (target_feature : string) (target : column),
    getcol df target_feature = Ok target ->
    In (Radio "Choose Plot Type" [BOXPLOT; EVENT_RATE])
       (snd (bivariates_page E df target_feature)) ->
    exists selected col,
      bivariate_selection E df target_feature = Some selected
      /\ selected <> target_feature
      /\ In (selected, col) df
      /\ col_dtype col = Number.
Proof.
  intros E df target_feature target Hcol Hin.
  destruct (is_target_binary_like target) eqn:Hs.
  - destruct (opt_mem (bivariate_selection E df target_feature)
                      (numerical_features df)) eqn:Hsel.
    + destruct (bivariate_selection E df target_feature) as [selected|] eqn:Hpick;
        [|discriminate].
      cbn [opt_mem] in Hsel. apply mem_In in Hsel.
      destruct (numerical_feature_In df selected Hsel) as [col [Hc Hn]].
      exists selected, col. repeat split; trivial.
      unfold bivariate_selection in Hpick. apply pick_In in Hpick.
      unfold non_target_features in Hpick. apply filter_In in Hpick.
      destruct Hpick as [_ Hne]. apply negb_true_iff, String.eqb_neq in Hne. exact Hne.
    + rewrite (bivariates_page_not_numeric E df target_feature target Hcol Hs Hsel) in Hin.
      simpl in Hin. intuition discriminate.
  - rewrite (bivariates_page_unsuitable E df target_feature target Hcol Hs) in Hin.
    simpl in Hin. intuition discriminate.
Qed.

Lemma bivariates_page_plots_numeric_non_target_witness :
  exists selected col,
    bivariate_selection (quiet_env sample_df) sample_df "default_ind" = Some selected
    /\ selected <> "default_ind"
    /\ In (selected, col) sample_df
    /\ col_dtype col = Number.
Proof.
  apply (bivariates_page_plots_numeric_non_target (quiet_env sample_df) sample_df
           "default_ind" (mkCol Number (floats [0; 1; 0]%Z)) eq_refl).
  vm_compute. tauto.
Defined.

(** X12.  With a suitable target and a numerical feature selected, the
    bivariate page is its heading, its sidebar, the radio and then the plot
    the radio selects: the box plot, or the bin-count slider followed by the
    event-rate plot, which is called with a bin count between 2 and 10. *)
Theorem bivariates_page_composition :
  forall (E : env) (df : DataFrame) (target_feature : string) (target : column)
         (selected : string),
    getcol df target_feature = Ok target ->
    is_target_binary_like target = true ->
    bivariate_selection E df target_feature = Some selected ->
    mem selected (numerical_features df) = true ->
    exists n_bins,
      2 <= n_bins /\ n_bins <= 10
      /\ bivariates_page E df target_feature =
         (Ret tt,
          bivariate_heading ++ bivariate_sidebar df target_feature
            ++ Radio "Choose Plot Type" [BOXPLOT; EVENT_RATE]
            :: (if radio_choice E "Choose Plot Type" mod 2 =? 0
                then snd (plot_boxplot E df selected target_feature)
                else Slider ("Number of Bins for '" ++ selected ++ "'")%string 2 10 5
                       :: snd (plot_event_rate_bar E df selected target_feature n_bins))).
Proof.
  intros E df target_feature target selected Hcol Hs Hpick Hmem.
  exists (2 + slider_choice E ("Number of Bins for '" ++ selected ++ "'")%string
              mod (10 - 2 + 1)).
  split; [lia|]. split.
  { pose proof (Nat.mod_upper_bound
                  (slider_choice E ("Number of Bins for '" ++ selected ++ "'")%string)
                  (10 - 2 + 1)). simpl in *. lia. }
  unfold bivariates_page. rewrite Hcol. cbn [lift]. unfold bind at 1 2 3.
  cbn [emit ret app]. rewrite Hs.
  unfold st_sidebar_selectbox, st_radio, st_slider.
  unfold bivariate_selection in Hpick.
  cbn [bind emit ret app]. rewrite Hpick. cbn [opt_mem py_str]. rewrite Hmem.
  unfold pick. cbn [length].
  assert (Hlt : radio_choice E "Choose Plot Type" mod 2 < 2)
    by (apply Nat.mod_upper_bound; discriminate).
  destruct (radio_choice E "Choose Plot Type" mod 2) as [|[|k]] eqn:Hr; [| |lia].
  - cbn [nth_error py_str Nat.eqb].
    change (String.eqb BOXPLOT BOXPLOT) with true. cbv iota.
    pose proof (plot_boxplot_returns E df selected target_feature) as Hret.
    destruct (plot_boxplot E df selected target_feature) as [o l].
    cbn [fst snd] in *. subst o. reflexivity.
  - cbn [nth_error py_str Nat.eqb].
    change (String.eqb EVENT_RATE BOXPLOT) with false.
    change (String.eqb EVENT_RATE EVENT_RATE) with true. cbv iota.
    pose proof (plot_event_rate_bar_returns E df selected target_feature
                  (2 + slider_choice E ("Number of Bins for '" ++ selected ++ "'")%string
                       mod (10 - 2 + 1))) as Hret.
    destruct (plot_event_rate_bar E df selected target_feature _) as [o l].
    cbn [fst snd] in *. subst o. reflexivity.
Qed.

Lemma bivariates_page_composition_witness :
  exists n_bins,
    2 <= n_bins /\ n_bins <= 10
    /\ bivariates_page (event_rate_env sample_df) sample_df "default_ind" =
       (Ret tt,
        bivariate_heading ++ bivariate_sidebar sample_df "default_ind"
          ++ Radio "Choose Plot Type" [BOXPLOT; EVENT_RATE]
          :: (if radio_choice (event_rate_env sample_df) "Choose Plot Type" mod 2 =? 0
              then snd (plot_boxplot (event_rate_env sample_df) sample_df
                                     "age" "default_ind")
              else Slider "Number of Bins for 'age'" 2 10 5
                     :: snd (plot_event_rate_bar (event_rate_env sample_df) sample_df
                                                 "age" "default_ind" n_bins))).
Proof.
  apply (bivariates_page_composition (event_rate_env sample_df) sample_df
           "default_ind" (mkCol Number (floats [0; 1; 0]%Z)) "age");
    reflexivity.
Defined.

(** X13.  The profiling page never offers the target as a feature: its
    options are the columns with a number dtype other than the target.  With
    no such column the page is its heading and a warning; otherwise the
    sidebar shows the options and the subheader names one of them. *)
Theorem defaulter_profiling_page_options :
  forall (E : env) (df : DataFrame) (target_feature : string),
    (forall f, In f (features_to_profile df target_feature) ->
       f <> target_feature /\ exists col, In (f, col) df /\ col_dtype col = Number)
    /\ (features_to_profile df target_feature = [] ->
        defaulter_profiling_page E df target_feature =
        (Ret tt,
         profiling_heading
           ++ [Warning "No numerical features available for profiling after excluding the target column."]))
    /\ (features_to_profile df target_feature <> [] ->
        exists selected rest,
          In selected (features_to_profile df target_feature)
          /\ snd (defaulter_profiling_page E df target_feature) =
             profiling_heading
               ++ [SidebarMarkdown "---";
                   SidebarSubheader "Profiling Settings";
                   SidebarSelectbox "Select Feature to Profile"
                                    (features_to_profile df target_feature);
                   Subheader ("Average " ++ selected
                                ++ " for Defaulters vs. Non-Defaulters")%string]
               ++ rest).
Proof.
  intros E df target_feature. split; [|split].
  - intros f Hf. unfold features_to_profile in Hf. apply filter_In in Hf.
    destruct Hf as [Hnum Hne]. split.
    + now apply negb_true_iff, String.eqb_neq in Hne.
    + now apply numerical_feature_In.
  - intros Hnil. unfold defaulter_profiling_page.
    unfold features_to_profile in Hnil. rewrite Hnil. reflexivity.
  - intros Hne.
    destruct (pick_nonempty (features_to_profile df target_feature)
                (selectbox_choice E "Select Feature to Profile") Hne) as [sel Hsel].
    exists sel.
    unfold defaulter_profiling_page, st_sidebar_selectbox.
    fold (features_to_profile df target_feature).
    destruct (features_to_profile df target_feature) as [|f fs] eqn:Hfs; [contradiction|].
    rewrite !snd_bind_emit.
    rewrite (snd_bind _ _ (pick (f :: fs) (selectbox_choice E "Select Feature to Profile"))
                      [SidebarSelectbox "Select Feature to Profile" (f :: fs)])
      by reflexivity.
    cbv zeta. rewrite Hsel. cbn [py_str]. rewrite snd_bind_emit.
    eexists. split; [now apply (pick_In _ _ _ Hsel)|reflexivity].
Qed.

Lemma defaulter_profiling_page_options_witness :
  defaulter_profiling_page (quiet_env labels_df) [("default_ind", mkCol Number (floats [0; 1]%Z))]
                           "default_ind" =
  (Ret tt,
   profiling_heading
     ++ [Warning "No numerical features available for profiling after excluding the target column."]).
Proof.
  apply (defaulter_profiling_page_options (quiet_env labels_df)
           [("default_ind", mkCol Number (floats [0; 1]%Z))] "default_ind").
  reflexivity.
Defined.

(** X14.  On the univariate page of a frame with at least one column the
    selected feature is a column of the frame, and the kind of chart follows
    its dtype: the only chart a numeric (or boolean) column can get is the
    histogram, the only chart any other column can get is the bar chart of
    its value counts; and the chart is drawn when no external call
    raises. *)
Theorem univariate_analysis_page_chart :
  forall (E : env) (df : DataFrame),
    columns df <> [] ->
    exists name col,
      pick (columns df) (selectbox_choice E "Select a feature to analyze") = Some name
      /\ getcol df name = Ok col
      /\ (forall fig,
            In (PlotlyChart fig) (snd (univariate_analysis_page E df)) ->
            fig = if is_numeric_dtype col
                  then HistogramFig name ("Distribution of " ++ name)%string
                  else BarFig (ValueCounts name) name "Count"
                              ("Value Counts of " ++ name)%string)
      /\ ((forall c, raises E c = None) ->
          exists fig, In (PlotlyChart fig) (snd (univariate_analysis_page E df))).
Proof.
  intros E df Hne.
  destruct (pick_nonempty (columns df) (selectbox_choice E "Select a feature to analyze") Hne)
    as [name Hname].
  destruct (getcol_In df name (pick_In _ _ _ Hname)) as [col [Hcol _]].
  exists name, col. split; [exact Hname|]. split; [exact Hcol|].
  assert (Hpage :
    snd (univariate_analysis_page E df) =
    Header "Univariate Analysis"
    :: Markdown "Explore the distribution of individual features in your dataset."
    :: Selectbox "Select a feature to analyze" (columns df)
    :: Subheader ("Distribution of " ++ name)%string
    :: snd (if is_numeric_dtype col then
              fig_hist <- call E px_histogram
                            (HistogramFig name ("Distribution of " ++ name)%string) ;;
              draw E st_plotly_chart (PlotlyChart fig_hist) ;;
              emit (Write "📈 **Summary Statistics**") ;;
              described <- call E series_describe (Describe name) ;;
              draw E st_dataframe (ShowDataframe described)
            else
              counts <- call E series_value_counts (ValueCounts name) ;;
              fig_bar <- call E px_bar
                           (BarFig counts name "Count"
                                   ("Value Counts of " ++ name)%string) ;;
              draw E st_plotly_chart (PlotlyChart fig_bar))).
  { unfold univariate_analysis_page, st_selectbox.
    rewrite !snd_bind_emit.
    rewrite (snd_bind _ _ (pick (columns df)
                                (selectbox_choice E "Select a feature to analyze"))
                      [Selectbox "Select a feature to analyze" (columns df)])
      by reflexivity.
    cbv zeta. rewrite Hname. cbn [py_str app]. rewrite snd_bind_emit.
    rewrite Hcol.
    rewrite (snd_bind _ _ col []) by reflexivity. reflexivity. }
  rewrite Hpage. split.
  - intros fig Hin.
    destruct Hin as [H|[H|[H|[H|Hin]]]]; try discriminate.
    destruct (is_numeric_dtype col); revert Hin; unfold call, draw, bind, emit, ret, raise;
      repeat match goal with
             | |- context [raises E ?c] => destruct (raises E c)
             end;
      cbn [snd app In]; intros Hin;
      repeat (destruct Hin as [Hin|Hin]; [inversion Hin; reflexivity || discriminate|]);
      try contradiction.
  - intros Hquiet. unfold call, draw. rewrite !Hquiet.
    destruct (is_numeric_dtype col); eexists; cbn; right; right; right; right;
      left; reflexivity.
Qed.

Lemma univariate_analysis_page_chart_witness :
  exists name col,
    pick (columns city_df)
         (selectbox_choice (quiet_env city_df) "Select a feature to analyze") = Some name
    /\ getcol city_df name = Ok col
    /\ (forall fig,
          In (PlotlyChart fig) (snd (univariate_analysis_page (quiet_env city_df) city_df)) ->
          fig = if is_numeric_dtype col
                then HistogramFig name ("Distribution of " ++ name)%string
                else BarFig (ValueCounts name) name "Count"
                            ("Value Counts of " ++ name)%string)
    /\ ((forall c, raises (quiet_env city_df) c = None) ->
        exists fig,
          In (PlotlyChart fig) (snd (univariate_analysis_page (quiet_env city_df) city_df))).
Proof.
  apply (univariate_analysis_page_chart (quiet_env city_df) city_df).
  discriminate.
Defined.

(** X15.  The correlation page warns, and draws nothing else, when the
    frame has no column with a number dtype or no row; the only chart it can
    draw is the heat map of the correlation matrix of exactly the columns
    with a number dtype (booleans and strings stay out), and it draws it
    only when there is numeric data. *)
Theorem correlation_page_numeric_only :
  forall (E : env) (df : DataFrame),
    (df_empty (select_dtypes_include_number df) = true ->
     correlation_page E df =
     (Ret tt,
      correlation_heading
        ++ [Warning "No numerical features available to generate a correlation matrix."]))
    /\ (forall fig,
          In (PlotlyChart fig) (snd (correlation_page E df)) ->
          df_empty (select_dtypes_include_number df) = false
          /\ fig = HeatmapFig (CorrMatrix (numerical_features df)) "Correlation Heatmap")
    /\ (forall name, In name (numerical_features df) ->
          exists col, In (name, col) df /\ col_dtype col = Number).
Proof.
  intros E df. split; [|split].
  - intros Hempty. unfold correlation_page. rewrite Hempty. reflexivity.
  - intros fig. unfold correlation_page. rewrite !snd_bind_emit.
    fold (numerical_features df).
    destruct (df_empty (select_dtypes_include_number df)).
    + cbn. intuition discriminate.
    + unfold call, draw, bind, emit, ret, raise.
      repeat match goal with
             | |- context [raises E ?c] => destruct (raises E c)
             end;
        cbn [snd app In]; intros Hin;
        repeat (destruct Hin as [Hin|Hin];
                [try discriminate; inversion Hin; now split|]);
        contradiction.
  - apply numerical_feature_In.
Qed.
